(** * Form validation and toast notifications of app/static/js/main.js

    A shallow embedding of the script: JavaScript strings as sequences of
    UTF-16 code units, the regular expression of the URL rule as a syntax
    tree run by a backtracking matcher in the style of ECMA-262, the page as
    a store of node objects addressed by handles, the statements of the
    listeners and of [showNotification] in a state-and-exception monad, and
    [setTimeout] as a queue of pending timers run by an event loop with a
    clock of its own.

    The page is a loaded one: the document has a body, which is where the
    script appends its notifications.  The style block that the script adds
    to the head and the export of [showNotification] on [window] do not act
    on anything modelled here and are left out. *)

From stdpp Require Import gmap strings list fin_maps.
From Stdlib Require Import NArith.

Local Open Scope N_scope.

(** ** JavaScript strings *)

Module JsString.

(** A string value is a finite sequence of 16-bit code units. *)
Definition code_unit := N.
Definition jsstring := list code_unit.

(** The source file is UTF-8; the engine turns each literal into UTF-16.
    [utf16_of_utf8] does the same for the literals written in this file. *)
Definition cont (b : N) : N := N.land b 63.

Definition surrogates (cp : N) : list code_unit :=
  let v := cp - 65536 in
  [55296 + N.shiftr v 10; 56320 + N.land v 1023].

Fixpoint utf16_of_utf8 (bs : list N) : list code_unit :=
  match bs with
  | [] => []
  | b0 :: t0 =>
    if b0 <? 128 then b0 :: utf16_of_utf8 t0
    else match t0 with
    | [] => [65533]
    | b1 :: t1 =>
      if b0 <? 224 then
        N.lor (N.shiftl (N.land b0 31) 6) (cont b1) :: utf16_of_utf8 t1
      else match t1 with
      | [] => [65533]
      | b2 :: t2 =>
        if b0 <? 240 then
          N.lor (N.shiftl (N.land b0 15) 12)
                (N.lor (N.shiftl (cont b1) 6) (cont b2)) :: utf16_of_utf8 t2
        else match t2 with
        | [] => [65533]
        | b3 :: t3 =>
          surrogates
            (N.lor (N.shiftl (N.land b0 7) 18)
               (N.lor (N.shiftl (cont b1) 12)
                  (N.lor (N.shiftl (cont b2) 6) (cont b3))))
          ++ utf16_of_utf8 t3
        end
      end
    end
  end.

Fixpoint bytes_of_string (s : string) : list N :=
  match s with
  | EmptyString => []
  | String a s' => Ascii.N_of_ascii a :: bytes_of_string s'
  end.

(** [js "..."] is the string value of the literal ['...'] of the script. *)
Definition js (s : string) : jsstring := utf16_of_utf8 (bytes_of_string s).

(** ToBoolean on a string: only the empty string is falsy. *)
Definition truthy (s : jsstring) : bool :=
  match s with [] => false | _ :: _ => true end.

(** [===] on two strings compares the code units. *)
Definition strict_eq (a b : jsstring) : bool := bool_decide (a = b).

(** [s.length] counts code units. *)
Definition str_length (s : jsstring) : N := N.of_nat (length s).

End JsString.
Export JsString.

(** ** Regular expressions *)

Module RegExp.

(** The fragment of the pattern grammar used by the script, without flags:
    no [i], [m], [s], [g], [u] or [y]. *)
Inductive Regex : Type :=
| Empty
| Char (c : code_unit)
| Dot
| BOL
| EOL
| Seq (r1 r2 : Regex)
| Alt (r1 r2 : Regex)
| Group (r : Regex)
| Quant (r : Regex) (min : nat) (max : option nat).

(** A match state: the index reached and the input that is left there. *)
Record MState := mkMState { endIndex : nat; rest : jsstring }.

Definition Cont := MState → bool.
Definition Matcher := MState → Cont → bool.

(** LineTerminator: LF, CR, LS, PS.  [.] matches any other code unit. *)
Definition isLineTerminator (c : code_unit) : bool :=
  (c =? 10) || (c =? 13) || (c =? 8232) || (c =? 8233).

Definition charMatcher (p : code_unit → bool) : Matcher := λ x k,
  match rest x with
  | [] => false
  | c :: t => if p c then k (mkMState (S (endIndex x)) t) else false
  end.

Definition max_pred (mx : option nat) : option nat := Nat.pred <$> mx.

(** RepeatMatcher of ECMA-262 for a greedy quantifier.  An iteration that
    consumes nothing once [min] is reached fails; every other iteration
    lowers [min] or shortens the input, which bounds [fuel]. *)
Fixpoint repeatMatcher (m : Matcher) (fuel min : nat) (max : option nat)
    (x : MState) (k : Cont) : bool :=
  if bool_decide (max = Some 0%nat) then k x
  else match fuel with
  | O => false
  | S fuel' =>
    let d : Cont := λ y,
      if bool_decide (min = 0%nat) && bool_decide (endIndex y = endIndex x)
      then false
      else repeatMatcher m fuel' (Nat.pred min) (max_pred max) y k in
    if bool_decide (min = 0%nat) then m x d || k x else m x d
  end.

Fixpoint compile (r : Regex) : Matcher :=
  match r with
  | Empty => λ x k, k x
  | Char c => charMatcher (N.eqb c)
  | Dot => charMatcher (λ c, negb (isLineTerminator c))
  | BOL => λ x k, if bool_decide (endIndex x = 0%nat) then k x else false
  | EOL => λ x k, match rest x with [] => k x | _ :: _ => false end
  | Seq r1 r2 => λ x k, compile r1 x (λ y, compile r2 y k)
  | Alt r1 r2 => λ x k, compile r1 x k || compile r2 x k
  | Group r1 => compile r1
  | Quant r1 mn mx => λ x k,
      repeatMatcher (compile r1) (S (mn + length (rest x))) mn mx x k
  end.

(** RegExpBuiltinExec without [g] and [y]: [lastIndex] starts at 0 and the
    matcher is tried at each index up to the length of the input. *)
Fixpoint search (r : Regex) (i : nat) (s : jsstring) : bool :=
  compile r (mkMState i s) (λ _, true)
  || match s with [] => false | _ :: t => search r (S i) t end.

(** [r.test(s)]. *)
Definition test (r : Regex) (s : jsstring) : bool := search r 0 s.

(** Literal text, as a sequence of pattern characters. *)
Fixpoint lit (w : jsstring) : Regex :=
  match w with
  | [] => Empty
  | c :: w' => Seq (Char c) (lit w')
  end.

Definition opt (r : Regex) : Regex := Quant r 0 (Some 1%nat).
Definition plus (r : Regex) : Regex := Quant r 1 None.

(** The matcher as a relation between the state before and the state
    after, with no fuel: what [compile] computes (see [compile_spec]). *)
Inductive Matches : Regex → MState → MState → Prop :=
| M_Empty x : Matches Empty x x
| M_Char c i t : Matches (Char c) (mkMState i (c :: t)) (mkMState (S i) t)
| M_Dot c i t :
    isLineTerminator c = false →
    Matches Dot (mkMState i (c :: t)) (mkMState (S i) t)
| M_BOL t : Matches BOL (mkMState 0 t) (mkMState 0 t)
| M_EOL i : Matches EOL (mkMState i []) (mkMState i [])
| M_Seq r1 r2 x y z :
    Matches r1 x y → Matches r2 y z → Matches (Seq r1 r2) x z
| M_AltL r1 r2 x y : Matches r1 x y → Matches (Alt r1 r2) x y
| M_AltR r1 r2 x y : Matches r2 x y → Matches (Alt r1 r2) x y
| M_Group r x y : Matches r x y → Matches (Group r) x y
| M_QuantMax r mn x : Matches (Quant r mn (Some 0%nat)) x x
| M_QuantStop r mx x : Matches (Quant r 0 mx) x x
| M_QuantStep r mn mx x y z :
    mx ≠ Some 0%nat →
    Matches r x y →
    (mn = 0%nat → endIndex y ≠ endIndex x) →
    Matches (Quant r (Nat.pred mn) (max_pred mx)) y z →
    Matches (Quant r mn mx) x z.

(** State [y] is state [x] after reading [w]. *)
Definition reads (w : jsstring) (x y : MState) : Prop :=
  rest x = w ++ rest y ∧ endIndex y = (endIndex x + length w)%nat.

End RegExp.
Export RegExp.

(** /^(https?:\/\/)?(www\.)?(youtube\.com|youtu\.?be)\/.+$/ *)
Definition youtubePattern : Regex :=
  Seq BOL
 (Seq (opt (Group (Seq (lit (js "http")) (Seq (opt (Char 115)) (lit (js "://"))))))
 (Seq (opt (Group (lit (js "www."))))
 (Seq (Group (Alt (lit (js "youtube.com"))
                  (Seq (lit (js "youtu")) (Seq (opt (Char 46)) (lit (js "be"))))))
 (Seq (Char 47)
 (Seq (plus Dot)
      EOL))))).

(** ** The page *)

Module Dom.

(** Node objects are referred to by handles; two variables holding the same
    handle alias the same object. *)
Definition handle := nat.

Record Element := mkElement {
  tagName : string;
  className : jsstring;
  textContent : jsstring;
  value : jsstring;
  style : gmap string jsstring   (* inline declarations, by CSS property *)
}.

Definition newElement (tag : string) : Element :=
  mkElement tag [] [] [] ∅.

(** The closures handed to [setTimeout], with the variable they capture. *)
Inductive Callback : Type :=
| SlideOut (notification : handle)
| Remove (notification : handle).

(** The two anonymous listener functions of the script. *)
Inductive Listener : Type :=
| VideoUrlBlur
| PasswordInput.

Record Page := mkPage {
  heap : gmap handle Element;                   (* the node objects *)
  byId : gmap string handle;                    (* elements of the document by id *)
  body : list handle;                           (* children of document.body *)
  listeners : list (handle * string * Listener);
  timers : list (N * Callback);                 (* pending timers: due time, callback *)
  now : N                                       (* clock, in milliseconds *)
}.

Definition set_heap (f : gmap handle Element → gmap handle Element) (st : Page) : Page :=
  mkPage (f (heap st)) (byId st) (body st) (listeners st) (timers st) (now st).
Definition set_body (f : list handle → list handle) (st : Page) : Page :=
  mkPage (heap st) (byId st) (f (body st)) (listeners st) (timers st) (now st).
Definition set_listeners (f : list (handle * string * Listener) → list (handle * string * Listener))
    (st : Page) : Page :=
  mkPage (heap st) (byId st) (body st) (f (listeners st)) (timers st) (now st).
Definition set_timers (f : list (N * Callback) → list (N * Callback)) (st : Page) : Page :=
  mkPage (heap st) (byId st) (body st) (listeners st) (f (timers st)) (now st).
Definition set_now (t : N) (st : Page) : Page :=
  mkPage (heap st) (byId st) (body st) (listeners st) (timers st) t.

(** Statements run on the page and either complete or throw.  [OutOfFuel]
    is not an exception of the browser: it marks a run of the event loop
    that was given too little fuel, which [run_timers_ok] rules out. *)
Inductive Error : Type := TypeError | NotFoundError | OutOfFuel.

Inductive Result (A : Type) : Type :=
| Ok (a : A)
| Throw (e : Error).
Arguments Ok {A} a.
Arguments Throw {A} e.

Definition Js (A : Type) : Type := Page → Result (A * Page).

Definition ret {A} (a : A) : Js A := λ st, Ok (a, st).

Definition bind {A B} (c : Js A) (k : A → Js B) : Js B := λ st,
  match c st with
  | Ok (a, st') => k a st'
  | Throw e => Throw e
  end.

Declare Scope js_scope.
Delimit Scope js_scope with js.
Bind Scope js_scope with Js.
Notation "'let*' x ':=' c 'in' k" := (bind c (λ x, k))
  (at level 10, x name, c at level 100, k at level 200) : js_scope.
Notation "c ';;' k" := (bind c (λ _, k))
  (at level 100, k at level 200, right associativity) : js_scope.

(** A handle that no object of the store has. *)
Definition fresh_handle (m : gmap handle Element) : handle :=
  set_fold (λ k r, S k `max` r)%nat 0%nat (dom m).

(** [document.createElement(tag)] *)
Definition createElement (tag : string) : Js handle := λ st,
  let h := fresh_handle (heap st) in
  Ok (h, set_heap (insert h (newElement tag)) st).

Definition update (h : handle) (f : Element → Element) : Js unit := λ st,
  Ok ((), set_heap (alter f h) st).

(** [h.className = v], [h.textContent = v] *)
Definition setClassName (h : handle) (v : jsstring) : Js unit :=
  update h (λ e, mkElement (tagName e) v (textContent e) (value e) (style e)).
Definition setTextContent (h : handle) (v : jsstring) : Js unit :=
  update h (λ e, mkElement (tagName e) (className e) v (value e) (style e)).

(** [h.style.cssText = ...] replaces the inline declarations. *)
Definition setCssText (h : handle) (decls : list (string * jsstring)) : Js unit :=
  update h (λ e, mkElement (tagName e) (className e) (textContent e) (value e)
                           (list_to_map decls)).

(** [h.style.prop = v] sets one declaration.  For a shorthand such as
    border-color the declarations of its longhands, which the assignment
    overwrites as well, are not tracked: what is read back of a shorthand
    here is the shorthand itself. *)
Definition setStyle (h : handle) (prop : string) (v : jsstring) : Js unit :=
  update h (λ e, mkElement (tagName e) (className e) (textContent e) (value e)
                           (<[prop := v]> (style e))).

(** [h.value]; a handle with no object behind it stands for a receiver
    that is not an element. *)
Definition getValue (h : handle) : Js jsstring := λ st,
  match heap st !! h with
  | Some e => Ok (value e, st)
  | None => Throw TypeError
  end.

(** [document.body.appendChild(h)]: the node becomes the last child. *)
Definition appendChild (h : handle) : Js unit := λ st,
  Ok ((), set_body (λ b, filter (λ c, c ≠ h) b ++ [h]) st).

(** [document.body.removeChild(h)] throws when [h] is not a child. *)
Definition removeChild (h : handle) : Js unit := λ st,
  if bool_decide (h ∈ body st)
  then Ok ((), set_body (filter (λ c, c ≠ h)) st)
  else Throw NotFoundError.

(** [setTimeout(cb, delay)] *)
Definition setTimeout (cb : Callback) (delay : N) : Js unit := λ st,
  Ok ((), set_timers (λ ts, ts ++ [(now st + delay, cb)]) st).

(** [document.getElementById(id)]: the element, or null. *)
Definition getElementById (id : string) : Js (option handle) := λ st,
  Ok (byId st !! id, st).

(** [target.addEventListener(type, l)]; a call on null throws. *)
Definition addEventListener (target : option handle) (type : string) (l : Listener)
    : Js unit := λ st,
  match target with
  | Some h => Ok ((), set_listeners (λ ls, ls ++ [(h, type, l)]) st)
  | None => Throw TypeError
  end.

End Dom.
Export Dom.

(** ** The script *)

Local Open Scope js_scope.

(** The colour literals of the script. *)
Definition green : jsstring := Eval vm_compute in js "#27ae60".
Definition red : jsstring := Eval vm_compute in js "#e74c3c".
Definition orange : jsstring := Eval vm_compute in js "#f39c12".
Definition blue : jsstring := Eval vm_compute in js "#3498db".

Definition urlMessage : jsstring :=
  Eval vm_compute in js "Пожалуйста, введите корректную ссылку на YouTube видео".

Definition notificationCss : list (string * jsstring) :=
  [ ("position", js "fixed");
    ("top", js "20px");
    ("right", js "20px");
    ("padding", js "1rem 1.5rem");
    ("border-radius", js "5px");
    ("color", js "white");
    ("z-index", js "1000");
    ("animation", js "slideIn 0.3s ease") ].

(** function showNotification(message, type = 'info'); [None] is an omitted
    second argument. *)
Definition showNotification (message : jsstring) (type_arg : option jsstring) : Js unit :=
  let type := default (js "info") type_arg in
  let* notification := createElement "div" in
  setClassName notification (js "notification " ++ type);;
  setTextContent notification message;;
  setCssText notification notificationCss;;
  (if strict_eq type (js "success") then
     setStyle notification "background" green
   else if strict_eq type (js "error") then
     setStyle notification "background" red
   else
     setStyle notification "background" blue);;
  appendChild notification;;
  setTimeout (SlideOut notification) 3000.

(** The bodies of the two timer callbacks. *)
Definition runCallback (cb : Callback) : Js unit :=
  match cb with
  | SlideOut notification =>
      setStyle notification "animation" (js "slideOut 0.3s ease");;
      setTimeout (Remove notification) 300
  | Remove notification =>
      removeChild notification
  end.

(** The blur listener of the video_url field. *)
Definition onVideoUrlBlur (this : handle) : Js unit :=
  let* v := getValue this in
  let* invalid :=
    (if truthy v then
       let* v' := getValue this in ret (negb (test youtubePattern v'))
     else ret false) in
  if (invalid : bool) then
    setStyle this "border-color" red;;
    showNotification urlMessage (Some (js "error"))
  else
    setStyle this "border-color" green.

(** The input listener of the password field. *)
Definition onPasswordInput (this : handle) : Js unit :=
  let* v := getValue this in
  let strength := str_length v in
  if strength <? 6 then
    setStyle this "border-color" red
  else if strength <? 10 then
    setStyle this "border-color" orange
  else
    setStyle this "border-color" green.

Definition runListener (l : Listener) (this : handle) : Js unit :=
  match l with
  | VideoUrlBlur => onVideoUrlBlur this
  | PasswordInput => onPasswordInput this
  end.

Definition is_element (o : option handle) : bool :=
  match o with Some _ => true | None => false end.

(** The DOMContentLoaded listener. *)
Definition onDOMContentLoaded : Js unit :=
  let* videoUrlInput := getElementById "video_url" in
  (if is_element videoUrlInput then
     addEventListener videoUrlInput "blur" VideoUrlBlur
   else ret ());;
  let* passwordInput := getElementById "password" in
  (if is_element passwordInput then
     addEventListener passwordInput "input" PasswordInput
   else ret ()).

(** ** The top level of the script *)

(** The anonymous listener that the script adds to the document. *)
Inductive DocumentListener : Type :=
| DOMContentLoadedListener.

(** The page with what the top level of the script acts on besides: the
    children of the head, the listeners on the document, and whether
    [window.showNotification] is the function of the script. *)
Record Document := mkDocument {
  page : Page;
  head : list handle;
  documentListeners : list (string * DocumentListener);
  windowShowNotification : bool
}.

Definition Doc (A : Type) : Type := Document → Result (A * Document).

Definition retD {A} (a : A) : Doc A := λ d, Ok (a, d).

Definition bindD {A B} (c : Doc A) (k : A → Doc B) : Doc B := λ d,
  match c d with
  | Ok (a, d') => k a d'
  | Throw e => Throw e
  end.

Declare Scope doc_scope.
Delimit Scope doc_scope with doc.
Bind Scope doc_scope with Doc.
Notation "'let*' x ':=' c 'in' k" := (bindD c (λ x, k))
  (at level 10, x name, c at level 100, k at level 200) : doc_scope.
Notation "c ';;' k" := (bindD c (λ _, k))
  (at level 100, k at level 200, right associativity) : doc_scope.

(** A statement on the page, run in the document. *)
Definition onPage {A} (c : Js A) : Doc A := λ d,
  match c (page d) with
  | Ok (a, p) => Ok (a, mkDocument p (head d) (documentListeners d)
                                   (windowShowNotification d))
  | Throw e => Throw e
  end.

(** [document.addEventListener(type, l)] *)
Definition addDocumentListener (type : string) (l : DocumentListener) : Doc unit := λ d,
  Ok ((), mkDocument (page d) (head d) (documentListeners d ++ [(type, l)])
                     (windowShowNotification d)).

(** [document.head.appendChild(h)] *)
Definition headAppendChild (h : handle) : Doc unit := λ d,
  Ok ((), mkDocument (page d) (filter (λ c, c ≠ h) (head d) ++ [h])
                     (documentListeners d) (windowShowNotification d)).

(** [window.showNotification = showNotification] *)
Definition exportShowNotification : Doc unit := λ d,
  Ok ((), mkDocument (page d) (head d) (documentListeners d) true).

Definition lines (ls : list string) : jsstring :=
  foldr (λ l r, js l ++ match r with [] => [] | _ => 10 :: r end) [] ls.

(** The template literal assigned to [style.textContent]; it starts and
    ends with a line feed. *)
Definition styleText : jsstring :=
  10 :: lines
    [ "    @keyframes slideIn {";
      "        from { transform: translateX(100%); opacity: 0; }";
      "        to { transform: translateX(0); opacity: 1; }";
      "    }";
      "    ";
      "    @keyframes slideOut {";
      "        from { transform: translateX(0); opacity: 1; }";
      "        to { transform: translateX(100%); opacity: 0; }";
      "    }";
      "    ";
      "    .notification {";
      "        box-shadow: 0 4px 6px rgba(0,0,0,0.1);";
      "    }" ] ++ [10].

(** The statements of the top level, in their order. *)
Definition main : Doc unit :=
  (addDocumentListener "DOMContentLoaded" DOMContentLoadedListener;;
   let* style := onPage (createElement "style") in
   onPage (setTextContent style styleText);;
   headAppendChild style;;
   exportShowNotification)%doc.

Definition runDocumentListener (l : DocumentListener) : Doc unit :=
  match l with
  | DOMContentLoadedListener => onPage onDOMContentLoaded
  end.

(** Dispatch an event of the given type at the document. *)
Fixpoint runDocumentListeners (ls : list (string * DocumentListener)) (type : string)
    : Doc unit :=
  match ls with
  | [] => retD ()
  | (ty, l) :: ls' =>
    ((if bool_decide (ty = type) then runDocumentListener l else retD ());;
     runDocumentListeners ls' type)%doc
  end.

Definition dispatchDocumentEvent (type : string) : Doc unit := λ d,
  runDocumentListeners (documentListeners d) type d.

(** The elements whose [value] is the string the user edits; the model
    gives every node a string [value], which is what the script finds on
    these. *)
Definition isField (tag : string) : bool :=
  bool_decide (tag = "input") || bool_decide (tag = "textarea").

(** A document as the parser hands it to the first script: no listener on
    it, nothing exported. *)
Definition parsedDocument (p : Page) (head_children : list handle) : Document :=
  mkDocument p head_children [] false.

(** ** The event loop *)

(** The pending timer that is due first; among equals the one set first. *)
Fixpoint extract_min (l : list (N * Callback))
    : option ((N * Callback) * list (N * Callback)) :=
  match l with
  | [] => None
  | x :: l' =>
    match extract_min l' with
    | None => Some (x, [])
    | Some (y, r) => if x.1 <=? y.1 then Some (x, l') else Some (y, x :: r)
    end
  end.

(** Run the timers that are due by time [t], each at its due time. *)
Fixpoint run_timers (fuel : nat) (t : N) : Js unit := λ st,
  match extract_min (timers st) with
  | None => Ok ((), set_now (N.max (now st) t) st)
  | Some ((due, cb), others) =>
    if due <=? t then
      match fuel with
      | O => Throw OutOfFuel
      | S fuel' =>
        (runCallback cb;; run_timers fuel' t)
          (set_now (N.max (now st) due) (set_timers (λ _, others) st))
      end
    else Ok ((), set_now (N.max (now st) t) st)
  end.

(** A slide-out callback sets one more timer, a removal sets none. *)
Definition weight (cb : Callback) : nat :=
  match cb with SlideOut _ => 2%nat | Remove _ => 1%nat end.

Definition timers_weight (ts : list (N * Callback)) : nat :=
  sum_list_with (λ x, weight x.2) ts.

(** Let [dt] milliseconds pass. *)
Definition elapse (dt : N) : Js unit := λ st,
  run_timers (timers_weight (timers st)) (now st + dt) st.

(** Dispatch an event of the given type at a node: its listeners run in the
    order they were added. *)
Fixpoint runListeners (ls : list (handle * string * Listener)) (target : handle)
    (type : string) : Js unit :=
  match ls with
  | [] => ret ()
  | (h, ty, l) :: ls' =>
    (if bool_decide (h = target) && bool_decide (ty = type)
     then runListener l target else ret ());;
    runListeners ls' target type
  end.

Definition dispatchEvent (target : handle) (type : string) : Js unit := λ st,
  runListeners (listeners st) target type st.

(** What can happen on the page once the script is loaded. *)
Inductive Event : Type :=
| Elapse (dt : N)                                   (* time passes *)
| UserInput (field : handle) (v : jsstring)         (* the user edits a field *)
| UserBlur (field : handle)                         (* a field loses focus *)
| CallShowNotification (message : jsstring) (type_arg : option jsstring).
                                                    (* window.showNotification(...) *)

Definition setValue (h : handle) (v : jsstring) : Js unit :=
  update h (λ e, mkElement (tagName e) (className e) (textContent e) v (style e)).

Definition runEvent (ev : Event) : Js unit :=
  match ev with
  | Elapse dt => elapse dt
  | UserInput field v => setValue field v;; dispatchEvent field "input"
  | UserBlur field => dispatchEvent field "blur"
  | CallShowNotification message type_arg => showNotification message type_arg
  end.

Fixpoint runEvents (evs : list Event) : Js unit :=
  match evs with
  | [] => ret ()
  | ev :: evs' => runEvent ev;; runEvents evs'
  end.

(** The time a sequence of events takes. *)
Definition duration (ev : Event) : N :=
  match ev with Elapse dt => dt | _ => 0 end.

Definition elapsed (evs : list Event) : N :=
  foldr (λ ev t, duration ev + t) 0 evs.

(** ** Observations *)

Definition styleOf (st : Page) (h : handle) (prop : string) : option jsstring :=
  e ← heap st !! h; style e !! prop.

Definition borderColor (st : Page) (h : handle) : option jsstring :=
  styleOf st h "border-color".

(** The page a run ends in, when it does not throw. *)
Definition final {A} (r : Result (A * Page)) : option Page :=
  match r with Ok (_, st) => Some st | Throw _ => None end.

(** The node a timer callback holds. *)
Definition target (cb : Callback) : handle :=
  match cb with SlideOut n | Remove n => n end.

(** Pages as a browser presents them: the children of the body are
    distinct live nodes, a pending timer of the script holds a child of the
    body, no two of them the same one, and listeners and ids refer to live
    nodes.  Every page the script reaches from a loaded page is one of
    these (see [reachable_wf]). *)
Record wf (st : Page) : Prop := mkWf {
  wf_body_nodup : NoDup (body st);
  wf_body_live : ∀ h, h ∈ body st → is_Some (heap st !! h);
  wf_timers_nodup : NoDup (map (λ x, target x.2) (timers st));
  wf_timers_body : ∀ x, x ∈ timers st → target x.2 ∈ body st;
  wf_listeners_live : ∀ x, x ∈ listeners st → is_Some (heap st !! x.1.1);
  wf_ids_live : ∀ id h, byId st !! id = Some h → is_Some (heap st !! h)
}.

(** The node object a call of [showNotification] leaves in the store. *)
Definition backgroundOf (type : jsstring) : jsstring :=
  if strict_eq type (js "success") then green
  else if strict_eq type (js "error") then red else blue.

Definition notificationNode (message type : jsstring) : Element :=
  mkElement "div" (js "notification " ++ type) message []
            (<["background" := backgroundOf type]> (list_to_map notificationCss)).

(** Between [st] and [st'] no notification was emitted: no node was
    created, appended or removed, and no timer was set. *)
Definition silent (st st' : Page) : Prop :=
  dom (heap st') = dom (heap st) ∧ body st' = body st ∧ timers st' = timers st.

(** Between [st] and [st'] exactly one notification was emitted: one new
    node [n], a div of class [notification <type>] with the given text and
    the background of its type, appended to the body, and one timer set
    for it. *)
Definition emitted (st st' : Page) (n : handle) (message type : jsstring) : Prop :=
  heap st !! n = None ∧
  dom (heap st') = {[n]} ∪ dom (heap st) ∧
  heap st' !! n = Some (notificationNode message type) ∧
  body st' = body st ++ [n] ∧
  timers st' = timers st ++ [(now st + 3000, SlideOut n)].

Definition animationOf (st : Page) (h : handle) : option jsstring :=
  styleOf st h "animation".

(** The three stages of a notification [n] created at time [t0]. *)
Definition displayed (n : handle) (t0 : N) (st : Page) : Prop :=
  n ∈ body st ∧ animationOf st n = Some (js "slideIn 0.3s ease") ∧
  (t0 + 3000, SlideOut n) ∈ timers st.

Definition dismissing (n : handle) (t0 : N) (st : Page) : Prop :=
  n ∈ body st ∧ animationOf st n = Some (js "slideOut 0.3s ease") ∧
  (t0 + 3300, Remove n) ∈ timers st.

(** The stage of [n] agrees with the clock; while timers are being run the
    clock may have reached the due time of the next stage. *)
Definition lifecycle (n : handle) (t0 : N) (st : Page) : Prop :=
  is_Some (heap st !! n) ∧
  ((now st ≤ t0 + 3000 ∧ displayed n t0 st) ∨
   (t0 + 3000 ≤ now st ≤ t0 + 3300 ∧ dismissing n t0 st) ∨
   (t0 + 3300 ≤ now st ∧ n ∉ body st)).

(** Between events every pending timer of [n] is still to come. *)
Definition pending_later (n : handle) (st : Page) : Prop :=
  ∀ x, x ∈ timers st → target x.2 = n → now st < x.1.

(** A step that leaves the notification [n] as it is. *)
Definition stable (n : handle) (st st' : Page) : Prop :=
  now st' = now st ∧
  (n ∈ body st' ↔ n ∈ body st) ∧
  animationOf st' n = animationOf st n ∧
  (∀ x, target x.2 = n → (x ∈ timers st' ↔ x ∈ timers st)).

(** A step that loses no node object and leaves listeners, ids and the
    clock alone. *)
Definition grows (st st' : Page) : Prop :=
  listeners st' = listeners st ∧ byId st' = byId st ∧ now st' = now st ∧
  ∀ h, is_Some (heap st !! h) → is_Some (heap st' !! h).

(** A statement that completes, keeps the page well formed and leaves
    every notification as it is. *)
Definition steady (c : Js unit) (st : Page) : Prop :=
  ∃ st', c st = Ok ((), st') ∧ wf st' ∧ grows st st' ∧
         ∀ n, is_Some (heap st !! n) → stable n st st'.

(** A step that only adds notifications: new last children of the body,
    each with a slide-out timer 3000 ms from now. *)
Definition extends (st st' : Page) : Prop :=
  ∃ ns, body st' = body st ++ ns ∧
        timers st' = timers st ++ map (λ n, (now st + 3000, SlideOut n)) ns ∧
        now st' = now st ∧ (∀ n, n ∈ ns → n ∉ body st).

(** A statement that completes, keeps the page well formed and at most
    adds notifications. *)
Definition calm (c : Js unit) (st : Page) : Prop :=
  ∃ st', c st = Ok ((), st') ∧ wf st' ∧ grows st st' ∧ extends st st'.

(** Every pending slide-out is due within 3000 ms and every pending removal
    within 300 ms of the clock. *)
Definition timely (st : Page) : Prop :=
  ∀ x, x ∈ timers st →
       x.1 ≤ now st + match x.2 with SlideOut _ => 3000 | Remove _ => 300 end.

(** The children of the body are those of [base], in their order, and the
    notifications that pending timers hold. *)
Definition based (base : list handle) (st : Page) : Prop :=
  filter (λ h, h ∈ base) (body st) = base ∧
  (∀ h, h ∈ body st → h ∈ base ∨ h ∈ map (λ x, target x.2) (timers st)) ∧
  (∀ x, x ∈ timers st → target x.2 ∉ base).

Definition isRemove (cb : Callback) : bool :=
  match cb with Remove _ => true | SlideOut _ => false end.

(** While the timers that were pending at time [t0] are run: every slide-out
    is due by [t0 + 3000], every removal by [t0 + 3300], and the clock has
    not passed [t0 + 3000] as long as a slide-out is pending. *)
Definition draining (t0 : N) (st : Page) : Prop :=
  (∀ x, x ∈ timers st →
        x.1 ≤ t0 + if isRemove x.2 then 3300 else 3000) ∧
  (now st ≤ t0 + 3000 ∨ ∀ x, x ∈ timers st → isRemove x.2 = true).

Definition isCall (ev : Event) : bool :=
  match ev with CallShowNotification _ _ => true | _ => false end.

(** The calls of [showNotification] as events. *)
Definition callEvents (calls : list (jsstring * option jsstring)) : list Event :=
  map (λ c, CallShowNotification c.1 c.2) calls.

(** The listener registered for a field that is there, none for null. *)
Definition blurListenerFor (o : option handle) : list (handle * string * Listener) :=
  match o with Some h => [(h, "blur", VideoUrlBlur)] | None => [] end.

Definition inputListenerFor (o : option handle) : list (handle * string * Listener) :=
  match o with Some h => [(h, "input", PasswordInput)] | None => [] end.

(** A loaded page with the given nodes, all children of the body, and no
    listener or timer yet. *)
Definition loadedPage (nodes : list (handle * Element)) (ids : list (string * handle)) : Page :=
  mkPage (list_to_map nodes) (list_to_map ids) (map fst nodes) [] [] 0.

Definition inputField (v : jsstring) : Element := mkElement "input" [] [] v ∅.

(** A field that carries inline declarations of its own. *)
Definition styledField (v : jsstring) : Element :=
  mkElement "input" [] [] v
            (<["color" := js "black"]> (<["padding" := js "4px"]> ∅)).

(** A page with the two fields of the form. *)
Definition formPage (url password : jsstring) : Page :=
  loadedPage [(0%nat, inputField url); (1%nat, inputField password)]
             [("video_url", 0%nat); ("password", 1%nat)].

(** * Properties *)

(** The strings the pattern is meant to accept, part by part. *)
Definition schemes : list jsstring := [[]; js "http://"; js "https://"].
Definition wwws : list jsstring := [[]; js "www."].
Definition hosts : list jsstring := [js "youtube.com"; js "youtube"; js "youtu.be"].

Definition isYoutubeUrl (s : jsstring) : Prop :=
  ∃ scheme www host path,
    scheme ∈ schemes ∧ www ∈ wwws ∧ host ∈ hosts ∧
    path ≠ [] ∧ Forall (λ c, isLineTerminator c = false) path ∧
    s = scheme ++ www ++ host ++ js "/" ++ path.

(** ** The matcher *)

Section Matcher.

Lemma reads_refl x : reads [] x x.
Proof. split; simpl; [done | lia]. Qed.

Lemma reads_trans w1 w2 x y z :
  reads w1 x y → reads w2 y z → reads (w1 ++ w2) x z.
Proof.
  intros [H1 H2] [H3 H4]. split.
  - by rewrite H1, H3, app_assoc.
  - rewrite H4, H2, length_app. lia.
Qed.

Lemma reads_eq w x y :
  reads w x y → y = mkMState (endIndex x + length w) (drop (length w) (rest x)).
Proof.
  intros [H1 H2]. destruct y as [i t]; simpl in *. subst i.
  by rewrite H1, drop_app_length.
Qed.

(** A match only moves forward in the input. *)
Lemma Matches_reads r x y : Matches r x y → ∃ w, reads w x y.
Proof.
  induction 1;
    try (exists []; apply reads_refl);
    try (exists [c]; split; simpl; [done | lia]);
    try done.
  - destruct IHMatches1 as [w1 ?], IHMatches2 as [w2 ?].
    exists (w1 ++ w2). by eapply reads_trans.
  - destruct IHMatches1 as [w1 ?], IHMatches2 as [w2 ?].
    exists (w1 ++ w2). by eapply reads_trans.
Qed.

Lemma Matches_length r x y : Matches r x y → (length (rest y) ≤ length (rest x))%nat.
Proof.
  intros [w [H _]]%Matches_reads. rewrite H, length_app. lia.
Qed.

Lemma Matches_progress r x y :
  Matches r x y → endIndex y ≠ endIndex x → (length (rest y) < length (rest x))%nat.
Proof.
  intros [w [H1 H2]]%Matches_reads Hne. rewrite H1, length_app.
  destruct w; simpl in *; lia.
Qed.

Lemma charMatcher_spec p x k :
  charMatcher p x k = true ↔
  ∃ c t, rest x = c :: t ∧ p c = true ∧ k (mkMState (S (endIndex x)) t) = true.
Proof.
  unfold charMatcher. destruct (rest x) as [|c t].
  - split; [done | by intros (? & ? & ? & _)].
  - destruct (p c) eqn:Hp.
    + split; [intros; by exists c, t | by intros (? & ? & [= <- <-] & _ & ?)].
    + split; [done | intros (? & ? & [= <- <-] & ? & _); congruence].
Qed.

(** The fuel given to [repeatMatcher] is enough. *)
Lemma repeatMatcher_spec (m : Matcher) (r : Regex) :
  (∀ x k, m x k = true ↔ ∃ y, Matches r x y ∧ k y = true) →
  ∀ fuel mn mx x k,
    (mn + length (rest x) < fuel)%nat →
    repeatMatcher m fuel mn mx x k = true ↔
    ∃ z, Matches (Quant r mn mx) x z ∧ k z = true.
Proof.
  intros Hm. induction fuel as [|fuel IH]; intros mn mx x k Hfuel; [lia|].
  simpl. case_bool_decide as Hmx.
  { subst mx. split.
    - intros Hk. exists x. split; [constructor | done].
    - intros (z & HM & Hk). inversion HM; by subst. }
  case_bool_decide as Hmn.
  - subst mn. rewrite orb_true_iff, Hm. split.
    + intros [(y & Hy & Hd) | Hk].
      * case_bool_decide as Hidx; [done|]. simpl in Hd.
        apply IH in Hd as (z & Hz & Hk).
        -- exists z. split; [|done]. by eapply M_QuantStep.
        -- pose proof (Matches_progress _ _ _ Hy Hidx). simpl in *. lia.
      * exists x. split; [apply M_QuantStop | done].
    + intros (z & HM & Hk). inversion HM; subst; [done | by right |].
      left. eexists. split; [done|].
      rewrite bool_decide_eq_false_2 by auto. simpl.
      apply IH; [|by eexists].
      match goal with
      | Hs : Matches r x ?y, Hp : _ → endIndex ?y ≠ _ |- _ =>
          pose proof (Matches_progress _ _ _ Hs (Hp eq_refl))
      end. simpl in *. lia.
  - rewrite Hm. split.
    + intros (y & Hy & Hd). simpl in Hd.
      apply IH in Hd as (z & Hz & Hk).
      * exists z. split; [|done]. by eapply M_QuantStep.
      * pose proof (Matches_length _ _ _ Hy). lia.
    + intros (z & HM & Hk). inversion HM; subst; [done | done |].
      eexists. split; [done|]. simpl.
      apply IH; [|by eexists].
      match goal with
      | Hs : Matches r x ?y |- _ => pose proof (Matches_length _ _ _ Hs)
      end. lia.
Qed.

(** The matcher computes the relation. *)
Theorem compile_spec r x k :
  compile r x k = true ↔ ∃ y, Matches r x y ∧ k y = true.
Proof.
  revert x k. induction r as [| c | | | | r1 IH1 r2 IH2 | r1 IH1 r2 IH2 | r IH | r IH mn mx];
    intros x k; cbn [compile].
  - split; [intros; exists x; split; [constructor | done]|].
    intros (y & HM & Hk). by inversion HM; subst.
  - rewrite charMatcher_spec. split.
    + intros (c' & t & Hx & ->%N.eqb_eq & Hk). destruct x as [i u]; simpl in *; subst u.
      eexists. split; [constructor | done].
    + intros (y & HM & Hk). inversion HM; subst. simpl.
      exists c, t. by rewrite N.eqb_refl.
  - rewrite charMatcher_spec. split.
    + intros (c' & t & Hx & Hc%negb_true_iff & Hk). destruct x as [i u]; simpl in *; subst u.
      eexists. split; [by constructor | done].
    + intros (y & HM & Hk). inversion HM; subst. simpl.
      exists c, t. by rewrite H.
  - case_bool_decide as Hi.
    + split.
      * intros Hk. exists x. split; [|done]. destruct x; simpl in *; subst. constructor.
      * intros (y & HM & Hk). by inversion HM; subst.
    + split; [done|]. intros (y & HM & Hk). inversion HM; subst. by destruct Hi.
  - destruct (rest x) eqn:Hx.
    + split.
      * intros Hk. exists x. split; [|done]. destruct x; simpl in *; subst. constructor.
      * intros (y & HM & Hk). by inversion HM; subst.
    + split; [done|]. intros (y & HM & Hk). inversion HM; subst. done.
  - rewrite IH1. split.
    + intros (y & H1 & (z & H2 & Hk)%IH2). exists z. split; [by econstructor | done].
    + intros (z & HM & Hk). inversion HM; subst.
      eexists. split; [done|]. apply IH2. by eexists.
  - rewrite orb_true_iff, IH1, IH2. split.
    + intros [(y & ? & ?) | (y & ? & ?)]; exists y; split; try done;
        [by apply M_AltL | by apply M_AltR].
    + intros (y & HM & Hk). inversion HM; subst; [left | right]; by exists y.
  - rewrite IH. split.
    + intros (y & ? & ?). exists y. split; [by constructor | done].
    + intros (y & HM & Hk). inversion HM; subst. by exists y.
  - apply repeatMatcher_spec; [done | lia].
Qed.

Lemma search_spec r i s :
  search r i s = true ↔
  ∃ pre suf y, s = pre ++ suf ∧ Matches r (mkMState (i + length pre) suf) y.
Proof.
  revert i. induction s as [|c s IH]; intros i; simpl; rewrite orb_true_iff, compile_spec.
  - split.
    + intros [(y & HM & _) | ?]; [|done]. exists [], [], y. simpl.
      by rewrite Nat.add_0_r.
    + intros (pre & suf & y & Heq & HM). left.
      symmetry in Heq. apply app_eq_nil in Heq as [-> ->]. simpl in HM.
      rewrite Nat.add_0_r in HM. by exists y.
  - rewrite IH. split.
    + intros [(y & HM & _) | (pre & suf & y & -> & HM)].
      * exists [], (c :: s), y. simpl. by rewrite Nat.add_0_r.
      * exists (c :: pre), suf, y. simpl. by rewrite Nat.add_succ_r.
    + intros (pre & suf & y & Heq & HM). destruct pre as [|c' pre]; simpl in *.
      * subst suf. rewrite Nat.add_0_r in HM. left. by exists y.
      * injection Heq as -> ->. right. exists pre, suf, y.
        by rewrite Nat.add_succ_r in HM.
Qed.

Lemma test_spec r s :
  test r s = true ↔
  ∃ pre suf y, s = pre ++ suf ∧ Matches r (mkMState (length pre) suf) y.
Proof. apply search_spec. Qed.

(** *** Inversion of the relation, constructor by constructor *)

Lemma Matches_Char c x y : Matches (Char c) x y ↔ reads [c] x y.
Proof.
  split.
  - inversion 1; subst. split; simpl; [done | lia].
  - intros [H1 H2]. destruct x as [i s], y as [j t]; simpl in *; subst.
    replace (i + 1)%nat with (S i) by lia. constructor.
Qed.

Lemma Matches_Seq r1 r2 x z :
  Matches (Seq r1 r2) x z ↔ ∃ y, Matches r1 x y ∧ Matches r2 y z.
Proof.
  split; [inversion 1; subst; eauto | intros (y & ? & ?); by econstructor].
Qed.

Lemma Matches_Alt r1 r2 x y :
  Matches (Alt r1 r2) x y ↔ Matches r1 x y ∨ Matches r2 x y.
Proof.
  split; [inversion 1; subst; eauto | intros [?|?]; [by apply M_AltL | by apply M_AltR]].
Qed.

Lemma Matches_Group r x y : Matches (Group r) x y ↔ Matches r x y.
Proof. split; [by inversion 1 | by constructor]. Qed.

Lemma Matches_BOL x y : Matches BOL x y ↔ y = x ∧ endIndex x = 0%nat.
Proof.
  split; [by inversion 1|]. intros [-> H]. destruct x; simpl in *; subst. constructor.
Qed.

Lemma Matches_EOL x y : Matches EOL x y ↔ y = x ∧ rest x = [].
Proof.
  split; [by inversion 1|]. intros [-> H]. destruct x; simpl in *; subst. constructor.
Qed.

Lemma reads_nil x y : reads [] x y ↔ y = x.
Proof.
  split; [|intros ->; apply reads_refl].
  intros [H1 H2]. destruct x, y; simpl in *; subst. f_equal. lia.
Qed.

Lemma Matches_lit w x y : Matches (lit w) x y ↔ reads w x y.
Proof.
  revert x. induction w as [|c w IH]; intros x; simpl.
  - rewrite reads_nil. split; [by inversion 1 | intros ->; constructor].
  - rewrite Matches_Seq. setoid_rewrite Matches_Char. setoid_rewrite IH. split.
    + intros (z & H1 & H2). by apply (reads_trans [c] w x z y).
    + intros [H1 H2]. exists (mkMState (S (endIndex x)) (w ++ rest y)). split; split; simpl.
      * done.
      * lia.
      * done.
      * rewrite H2. simpl. lia.
Qed.

(** [r?] takes [r] once, on a non-empty match, or nothing. *)
Lemma Matches_opt r x y :
  Matches (opt r) x y ↔ y = x ∨ (Matches r x y ∧ endIndex y ≠ endIndex x).
Proof.
  unfold opt. split.
  - inversion 1; subst; [by left|]. right. simpl in *.
    match goal with Hq : Matches (Quant _ _ (Some 0%nat)) _ _ |- _ =>
      inversion Hq; subst; try done end; auto.
  - intros [-> | [HM Hne]]; [apply M_QuantStop|].
    eapply M_QuantStep; [done | done | done |]. simpl. apply M_QuantMax.
Qed.

(** [.*] and [.+] read a run of code units that are not line terminators. *)
Lemma Matches_star_Dot x y :
  Matches (Quant Dot 0 None) x y ↔
  ∃ w, Forall (λ c, isLineTerminator c = false) w ∧ reads w x y.
Proof.
  split.
  - remember (Quant Dot 0 None) as q eqn:Hq. induction 1; try discriminate.
    + exists []. split; [constructor | apply reads_refl].
    + injection Hq as -> -> ->. simpl in *.
      destruct (IHMatches2 eq_refl) as (w & Hw & Hr).
      match goal with Hd : Matches Dot _ _ |- _ => inversion Hd; subst end.
      exists (c :: w). split; [by constructor|].
      apply (reads_trans [c] w _ (mkMState (S i) t)); [|done].
      split; simpl; [done | lia].
  - intros (w & Hw & Hr). revert x Hr. induction Hw as [|c w Hc Hw IH]; intros x Hr.
    + apply reads_nil in Hr as ->. apply M_QuantStop.
    + destruct Hr as [H1 H2]. destruct x as [i s]; simpl in *; subst s.
      eapply (M_QuantStep Dot 0 None _ (mkMState (S i) (w ++ rest y))).
      * done.
      * by constructor.
      * simpl. lia.
      * simpl. apply IH. split; simpl; [done | lia].
Qed.

Lemma Matches_plus_Dot x y :
  Matches (plus Dot) x y ↔
  ∃ w, w ≠ [] ∧ Forall (λ c, isLineTerminator c = false) w ∧ reads w x y.
Proof.
  unfold plus. split.
  - inversion 1; subst. simpl in *.
    match goal with Hq : Matches (Quant _ _ None) _ _ |- _ =>
      apply Matches_star_Dot in Hq as (w & Hw & Hr) end.
    match goal with Hd : Matches Dot _ _ |- _ => inversion Hd; subst end.
    exists (c :: w). split; [done|]. split; [by constructor|].
    apply (reads_trans [c] w _ (mkMState (S i) t)); [|done].
    split; simpl; [done | lia].
  - intros (w & Hne & Hw & [H1 H2]). destruct w as [|c w]; [done|].
    apply Forall_cons in Hw as [Hc Hw].
    destruct x as [i s]; simpl in *; subst s.
    eapply (M_QuantStep Dot 1 None _ (mkMState (S i) (w ++ rest y))).
    + done.
    + by constructor.
    + done.
    + simpl. apply Matches_star_Dot. exists w. split; [done|].
      split; simpl; [done | lia].
Qed.

End Matcher.

(** ** The YouTube pattern *)

Section Pattern.

Local Opaque lit.

Lemma reads_progress w x y : reads w x y → w ≠ [] → endIndex y ≠ endIndex x.
Proof. intros [_ H] Hw. destruct w; [done|]. simpl in H. lia. Qed.

Lemma scheme_spec x y :
  Matches (opt (Group (Seq (lit (js "http")) (Seq (opt (Char 115)) (lit (js "://")))))) x y
  ↔ ∃ w, w ∈ schemes ∧ reads w x y.
Proof.
  rewrite Matches_opt, Matches_Group, Matches_Seq.
  setoid_rewrite Matches_Seq. setoid_rewrite Matches_opt.
  setoid_rewrite Matches_Char. setoid_rewrite Matches_lit. split.
  - intros [-> | [(y1 & H1 & y2 & [-> | [H2 _]] & H3) _]].
    + exists []. split; [set_solver | apply reads_refl].
    + exists (js "http://"). split; [set_solver|].
      apply (reads_trans (js "http") (js "://") x y1 y H1 H3).
    + exists (js "https://"). split; [set_solver|].
      apply (reads_trans (js "http") (js "s://") x y1 y H1).
      apply (reads_trans [115] (js "://") y1 y2 y H2 H3).
  - intros (w & Hw & Hr). unfold schemes in Hw.
    apply elem_of_cons in Hw as [-> | Hw]; [left; by apply reads_nil|].
    right. split; [|by eapply reads_progress; [done | set_solver]].
    pose proof (reads_eq _ _ _ Hr) as Hy. destruct Hr as [Hr1 Hr2].
    apply elem_of_cons in Hw as [-> | ->%list_elem_of_singleton].
    + exists (mkMState (endIndex x + 4) (js "://" ++ rest y)).
      split; [split; simpl; [done | lia]|].
      exists (mkMState (endIndex x + 4) (js "://" ++ rest y)).
      split; [by left|]. split; simpl; [done|]. rewrite Hr2. simpl. lia.
    + exists (mkMState (endIndex x + 4) (js "s://" ++ rest y)).
      split; [split; simpl; [done | lia]|].
      exists (mkMState (endIndex x + 5) (js "://" ++ rest y)). split.
      * right. split; [split; simpl; [done | lia] | simpl; lia].
      * split; simpl; [done|]. rewrite Hr2. simpl. lia.
Qed.

Lemma www_spec x y :
  Matches (opt (Group (lit (js "www.")))) x y ↔ ∃ w, w ∈ wwws ∧ reads w x y.
Proof.
  rewrite Matches_opt, Matches_Group, Matches_lit. split.
  - intros [-> | [H _]].
    + exists []. split; [set_solver | apply reads_refl].
    + exists (js "www."). split; [set_solver | done].
  - intros (w & Hw & Hr). unfold wwws in Hw.
    apply elem_of_cons in Hw as [-> | ->%list_elem_of_singleton].
    + left. by apply reads_nil.
    + right. split; [done|]. by eapply reads_progress.
Qed.

Lemma host_spec x y :
  Matches (Group (Alt (lit (js "youtube.com"))
                      (Seq (lit (js "youtu")) (Seq (opt (Char 46)) (lit (js "be")))))) x y
  ↔ ∃ w, w ∈ hosts ∧ reads w x y.
Proof.
  rewrite Matches_Group, Matches_Alt, Matches_Seq.
  setoid_rewrite Matches_Seq. setoid_rewrite Matches_opt.
  setoid_rewrite Matches_Char. setoid_rewrite Matches_lit. split.
  - intros [H | (y1 & H1 & y2 & [-> | [H2 _]] & H3)].
    + exists (js "youtube.com"). split; [set_solver | done].
    + exists (js "youtube"). split; [set_solver|].
      apply (reads_trans (js "youtu") (js "be") x y1 y H1 H3).
    + exists (js "youtu.be"). split; [set_solver|].
      apply (reads_trans (js "youtu") (js ".be") x y1 y H1).
      apply (reads_trans [46] (js "be") y1 y2 y H2 H3).
  - intros (w & Hw & Hr). unfold hosts in Hw.
    apply elem_of_cons in Hw as [-> | Hw]; [by left|]. right.
    destruct Hr as [Hr1 Hr2].
    apply elem_of_cons in Hw as [-> | ->%list_elem_of_singleton].
    + exists (mkMState (endIndex x + 5) (js "be" ++ rest y)).
      split; [split; simpl; [done | lia]|].
      exists (mkMState (endIndex x + 5) (js "be" ++ rest y)).
      split; [by left|]. split; simpl; [done|]. rewrite Hr2. simpl. lia.
    + exists (mkMState (endIndex x + 5) (js ".be" ++ rest y)).
      split; [split; simpl; [done | lia]|].
      exists (mkMState (endIndex x + 6) (js "be" ++ rest y)). split.
      * right. split; [split; simpl; [done | lia] | simpl; lia].
      * split; simpl; [done|]. rewrite Hr2. simpl. lia.
Qed.

(** The pattern accepts exactly the strings made of an optional scheme, an
    optional [www.], one of the three hosts, a slash and a non-empty path
    with no line terminator. *)
Theorem youtubePattern_spec s : test youtubePattern s = true ↔ isYoutubeUrl s.
Proof.
  rewrite test_spec. unfold youtubePattern, isYoutubeUrl.
  repeat setoid_rewrite Matches_Seq.
  setoid_rewrite Matches_BOL. setoid_rewrite scheme_spec. setoid_rewrite www_spec.
  setoid_rewrite host_spec. setoid_rewrite Matches_Char.
  setoid_rewrite Matches_plus_Dot. setoid_rewrite Matches_EOL. split.
  - intros (pre & suf & y & -> & y0 & [-> Hpre] & y1 & (a & Ha & Hra) & y2 &
            (b & Hb & Hrb) & y3 & (c & Hc & Hrc) & y4 & Hrd & y5 &
            (w & Hw & HLT & Hre) & -> & Hend).
    simpl in Hpre. destruct pre; [|done]. simpl in *.
    exists a, b, c, w. repeat (split; [done|]).
    destruct Hra as [Ea _], Hrb as [Eb _], Hrc as [Ec _], Hrd as [Ed _], Hre as [Ee _].
    simpl in *. by rewrite Ea, Eb, Ec, Ed, Ee, Hend, app_nil_r.
  - intros (a & b & c & w & Ha & Hb & Hc & Hw & HLT & ->).
    exists [], (a ++ b ++ c ++ js "/" ++ w). simpl.
    set (i1 := length a). set (i2 := (i1 + length b)%nat).
    set (i3 := (i2 + length c)%nat).
    exists (mkMState (S i3 + length w) []). split; [done|].
    exists (mkMState 0 (a ++ b ++ c ++ js "/" ++ w)). split; [done|].
    exists (mkMState i1 (b ++ c ++ js "/" ++ w)).
    split; [exists a; split; [done|]; by split|].
    exists (mkMState i2 (c ++ js "/" ++ w)).
    split; [exists b; split; [done|]; by split|].
    exists (mkMState i3 (js "/" ++ w)).
    split; [exists c; split; [done|]; by split|].
    exists (mkMState (S i3) w).
    split; [split; simpl; [done | lia]|].
    exists (mkMState (S i3 + length w) []).
    split; [|done]. exists w. split; [done|]. split; [done|].
    split; simpl; [by rewrite app_nil_r | done].
Qed.

End Pattern.

(** ** The page operations *)

Section PageLemmas.

Lemma fresh_handle_bound (m : gmap handle Element) k :
  is_Some (m !! k) → (k < fresh_handle m)%nat.
Proof.
  rewrite <- elem_of_dom. unfold fresh_handle. revert k.
  apply (set_fold_ind_L (λ r (X : gset handle), ∀ k, k ∈ X → (k < r)%nat)).
  - intros k Hk. by apply not_elem_of_empty in Hk.
  - intros i X r Hi IH k [->%elem_of_singleton | Hk]%elem_of_union; [lia|].
    specialize (IH k Hk). lia.
Qed.

Lemma fresh_handle_alter f h (m : gmap handle Element) :
  fresh_handle (alter f h m) = fresh_handle m.
Proof. unfold fresh_handle. by rewrite dom_alter_L. Qed.

Lemma fresh_handle_fresh (m : gmap handle Element) : m !! fresh_handle m = None.
Proof.
  destruct (m !! fresh_handle m) eqn:H; [|done].
  pose proof (fresh_handle_bound m (fresh_handle m) (mk_is_Some _ _ H)). lia.
Qed.

Lemma fresh_handle_ne (m : gmap handle Element) h :
  is_Some (m !! h) → h ≠ fresh_handle m.
Proof. intros H%fresh_handle_bound. lia. Qed.

Lemma filter_ne_id (l : list handle) (h : handle) :
  h ∉ l → filter (λ c, c ≠ h) l = l.
Proof.
  induction l as [|a l IH]; [done|]. intros Hn.
  apply not_elem_of_cons in Hn as [Hne Hn].
  rewrite filter_cons_True by done. by rewrite IH.
Qed.

Lemma wf_fresh_not_in_body st : wf st → fresh_handle (heap st) ∉ body st.
Proof.
  intros Hwf Hin. apply (wf_body_live _ Hwf) in Hin as [e He].
  by rewrite fresh_handle_fresh in He.
Qed.

(** [showNotification] never throws; the page it leaves. *)
Lemma showNotification_eq message type_arg st :
  let type := default (js "info") type_arg in
  let n := fresh_handle (heap st) in
  showNotification message type_arg st =
  Ok ((), mkPage (<[n := notificationNode message type]> (heap st)) (byId st)
                 (filter (λ c, c ≠ n) (body st) ++ [n]) (listeners st)
                 (timers st ++ [(now st + 3000, SlideOut n)]) (now st)).
Proof.
  intros type n. unfold showNotification. fold type.
  unfold bind, createElement, setClassName, setTextContent, setCssText. fold n.
  unfold update, set_heap. simpl.
  assert (∀ c, (if strict_eq type (js "success") then setStyle n "background" green
                else if strict_eq type (js "error") then setStyle n "background" red
                else setStyle n "background" blue) c
             = setStyle n "background" (backgroundOf type) c) as ->.
  { intros c. unfold backgroundOf. by repeat case_match. }
  unfold setStyle, update, appendChild, setTimeout, set_heap, set_body, set_timers. simpl.
  rewrite !alter_insert_eq. done.
Qed.

Lemma showNotification_emitted message type_arg st :
  wf st →
  ∃ st', showNotification message type_arg st = Ok ((), st') ∧
         emitted st st' (fresh_handle (heap st)) message (default (js "info") type_arg) ∧
         now st' = now st ∧ listeners st' = listeners st ∧ byId st' = byId st ∧
         ∀ h, h ≠ fresh_handle (heap st) → heap st' !! h = heap st !! h.
Proof.
  intros Hwf. eexists. split; [apply showNotification_eq|]. unfold emitted. simpl.
  split; [|split; [done|split; [done|split; [done|]]]].
  - split; [apply fresh_handle_fresh|]. split; [by rewrite dom_insert_L|].
    split; [apply lookup_insert_eq|].
    split; [|done]. by rewrite filter_ne_id by by apply wf_fresh_not_in_body.
  - intros h Hne. by rewrite lookup_insert_ne.
Qed.

Lemma update_eq h f st :
  update h f st = Ok ((), mkPage (alter f h (heap st)) (byId st) (body st)
                                 (listeners st) (timers st) (now st)).
Proof. done. Qed.

Lemma wf_update h f st : wf st → wf (set_heap (alter f h) st).
Proof.
  intros [H1 H2 H3 H4 H5 H6]. split; simpl; try done.
  - intros k Hk. apply lookup_alter_is_Some. auto.
  - intros x Hx. apply lookup_alter_is_Some. auto.
  - intros id k Hk. apply lookup_alter_is_Some. eauto.
Qed.

Lemma wf_loadedPage nodes ids :
  NoDup (map fst nodes) →
  (∀ x, x ∈ ids → x.2 ∈ map fst nodes) →
  wf (loadedPage nodes ids).
Proof.
  intros Hnd Hids.
  assert (∀ h, h ∈ map fst nodes → is_Some (list_to_map (M:=gmap handle Element) nodes !! h))
    as Hlive.
  { intros h Hh. apply list_elem_of_fmap in Hh as ([h' e] & -> & Hin). simpl.
    exists e. by apply elem_of_list_to_map. }
  split; simpl; try done.
  - constructor.
  - intros x Hx. by apply not_elem_of_nil in Hx.
  - intros x Hx. by apply not_elem_of_nil in Hx.
  - intros id h Hh. apply elem_of_list_to_map_2 in Hh. apply Hlive.
    apply (Hids (id, h) Hh).
Qed.

Lemma wf_formPage url password : wf (formPage url password).
Proof.
  apply wf_loadedPage; simpl.
  - repeat constructor; set_solver.
  - intros x Hx. repeat (apply elem_of_cons in Hx as [-> | Hx]); simpl; [set_solver..|].
    by apply not_elem_of_nil in Hx.
Qed.

Lemma wf_showNotification message type_arg st st' :
  wf st → showNotification message type_arg st = Ok ((), st') → wf st'.
Proof.
  intros Hwf. rewrite showNotification_eq. intros [= <-].
  pose proof (wf_fresh_not_in_body st Hwf) as Hfresh.
  destruct Hwf as [H1 H2 H3 H4 H5 H6]. split; simpl.
  - rewrite filter_ne_id by done. apply NoDup_app. split; [done|].
    split; [|apply NoDup_singleton]. intros x Hx ->%list_elem_of_singleton. done.
  - rewrite filter_ne_id by done. intros h [Hh | ->%list_elem_of_singleton]%elem_of_app.
    + rewrite lookup_insert_ne; [auto|]. intros <-. done.
    + rewrite lookup_insert_eq. by eexists.
  - rewrite map_app. simpl. apply NoDup_app. split; [done|].
    split; [|apply NoDup_singleton].
    intros x Hx ->%list_elem_of_singleton.
    apply list_elem_of_fmap in Hx as (y & Hy & Hin). apply H4 in Hin.
    rewrite <- Hy in Hin. done.
  - rewrite filter_ne_id by done.
    intros x [Hx | ->%list_elem_of_singleton]%elem_of_app; simpl; set_solver.
  - intros x Hx. destruct (decide (fresh_handle (heap st) = x.1.1)) as [<-|Hne].
    + rewrite lookup_insert_eq. by eexists.
    + rewrite lookup_insert_ne by done. auto.
  - intros id h Hh. destruct (decide (fresh_handle (heap st) = h)) as [<-|Hne].
    + rewrite lookup_insert_eq. by eexists.
    + rewrite lookup_insert_ne by done. eauto.
Qed.

End PageLemmas.

(** ** The two field rules *)

Section Handlers.

Lemma colours_distinct :
  red ≠ green ∧ red ≠ orange ∧ orange ≠ green ∧
  blue ≠ green ∧ blue ≠ red.
Proof. repeat split; discriminate. Qed.

Lemma borderColor_setStyle st this el c :
  heap st !! this = Some el →
  ∃ st', setStyle this "border-color" c st = Ok ((), st') ∧
         st' = set_heap (alter (λ e, mkElement (tagName e) (className e) (textContent e)
                                       (value e) (<["border-color" := c]> (style e))) this) st ∧
         borderColor st' this = Some c ∧
         (value <$> heap st' !! this) = Some (value el) ∧
         silent st st' ∧ now st' = now st ∧ listeners st' = listeners st ∧
         (∀ h, h ≠ this → heap st' !! h = heap st !! h).
Proof.
  intros Hel. eexists. split; [done|]. split; [done|].
  unfold borderColor, styleOf, silent. simpl.
  rewrite lookup_alter_eq, Hel. simpl. rewrite lookup_insert_eq.
  repeat split; try done.
  - apply dom_alter_L.
  - intros h Hne. by rewrite lookup_alter_ne.
Qed.

(** A value accepted by the rule: empty, or matched by the pattern. *)
Lemma onVideoUrlBlur_accepted st this el :
  heap st !! this = Some el →
  value el = [] ∨ test youtubePattern (value el) = true →
  onVideoUrlBlur this st = setStyle this "border-color" green st.
Proof.
  intros Hel Hv. unfold onVideoUrlBlur, bind, getValue. rewrite Hel.
  destruct (value el) as [|c v] eqn:Hval; simpl; [done|].
  rewrite Hel, Hval. simpl. destruct Hv as [? | ->]; done.
Qed.

Lemma onVideoUrlBlur_rejected st this el :
  heap st !! this = Some el →
  value el ≠ [] → test youtubePattern (value el) = false →
  onVideoUrlBlur this st =
  (setStyle this "border-color" red;; showNotification urlMessage (Some (js "error"))) st.
Proof.
  intros Hel Hne Ht. unfold onVideoUrlBlur, bind, getValue. rewrite Hel.
  destruct (value el) as [|c v] eqn:Hval; simpl; [done|].
  rewrite Hel, Hval. simpl. by rewrite Ht.
Qed.

(** What one run of the blur listener does, by the two cases. *)
Lemma onVideoUrlBlur_cases st this el :
  wf st → heap st !! this = Some el →
  ∃ st', onVideoUrlBlur this st = Ok ((), st') ∧ wf st' ∧
    (value <$> heap st' !! this) = Some (value el) ∧
    now st' = now st ∧ listeners st' = listeners st ∧
    ((value el = [] ∨ test youtubePattern (value el) = true) ∧
       borderColor st' this = Some green ∧ silent st st'
     ∨ (value el ≠ [] ∧ test youtubePattern (value el) = false) ∧
       borderColor st' this = Some red ∧
       emitted st st' (fresh_handle (heap st)) urlMessage (js "error")).
Proof.
  intros Hwf Hel.
  destruct (decide (value el = [])) as [Hempty | Hne];
    [|destruct (test youtubePattern (value el)) eqn:Ht].
  1,2: rewrite (onVideoUrlBlur_accepted st this el) by auto;
       destruct (borderColor_setStyle st this el green Hel)
         as (st' & -> & -> & Hc & Hv & Hs & Hn & Hl & _);
       exists (set_heap (alter (λ e, mkElement (tagName e) (className e) (textContent e)
                                  (value e) (<["border-color" := green]> (style e))) this) st);
       (split; [done|]); (split; [by apply wf_update|]); auto 10.
  rewrite (onVideoUrlBlur_rejected st this el) by auto. unfold bind.
  destruct (borderColor_setStyle st this el red Hel)
    as (st1 & -> & Hst1 & Hc & Hv & (Hd & Hb & Ht1) & Hn & Hl & Hh).
  assert (wf st1) as Hwf1 by (subst st1; by apply wf_update).
  destruct (showNotification_emitted urlMessage (Some (js "error")) st1 Hwf1)
    as (st' & Hshow & (Hf & Hd' & He & Hb' & Ht') & Hn' & Hl' & _ & Hh').
  assert (fresh_handle (heap st1) = fresh_handle (heap st)) as Hfresh.
  { subst st1. apply fresh_handle_alter. }
  rewrite Hfresh in *.
  assert (this ≠ fresh_handle (heap st)) as Hthis
    by (apply fresh_handle_ne; by eexists).
  exists st'. split; [done|].
  split; [by eapply wf_showNotification|].
  split; [by rewrite Hh'|]. split; [congruence|]. split; [congruence|].
  right. split; [done|]. split.
  - unfold borderColor, styleOf in *. by rewrite Hh'.
  - split; [by rewrite <- Hh by done|].
    split; [by rewrite Hd', Hd|]. split; [done|].
    rewrite Hb', Ht', Hb, Ht1, Hn. done.
Qed.

Lemma blur_on_accepted st this el :
  wf st → heap st !! this = Some el →
  value el = [] ∨ test youtubePattern (value el) = true →
  ∃ st', onVideoUrlBlur this st = Ok ((), st') ∧
         borderColor st' this = Some green ∧ silent st st'.
Proof.
  intros Hwf Hel Hv.
  destruct (onVideoUrlBlur_cases st this el Hwf Hel)
    as (st' & Hrun & _ & _ & _ & _ & [(_ & Hc & Hs) | ((Hne & Ht) & _)]).
  - by exists st'.
  - destruct Hv; congruence.
Qed.

Lemma blur_on_rejected st this el :
  wf st → heap st !! this = Some el →
  value el ≠ [] → test youtubePattern (value el) = false →
  ∃ st', onVideoUrlBlur this st = Ok ((), st') ∧
         borderColor st' this = Some red ∧
         emitted st st' (fresh_handle (heap st)) urlMessage (js "error").
Proof.
  intros Hwf Hel Hne Ht.
  destruct (onVideoUrlBlur_cases st this el Hwf Hel)
    as (st' & Hrun & _ & _ & _ & _ & [(Hv & _) | (_ & Hc & He)]).
  - destruct Hv; congruence.
  - by exists st'.
Qed.

End Handlers.

Example js_ascii : js "s./" = [115; 46; 47].
Proof. reflexivity. Qed.

Example js_cyrillic : js "Пож" = [1055; 1086; 1078].
Proof. reflexivity. Qed.

Example test_youtu_be : test youtubePattern (js "https://youtu.be/abc123") = true.
Proof. vm_compute. reflexivity. Qed.

Example test_ftp : test youtubePattern (js "ftp://example.com") = false.
Proof. vm_compute. reflexivity. Qed.

Example test_youtuXbe : test youtubePattern (js "https://youtuXbe/v") = false.
Proof. vm_compute. reflexivity. Qed.

Example test_slash_only : test youtubePattern (js "https://youtube.com/") = false.
Proof. vm_compute. reflexivity. Qed.

Example test_bare_youtube : test youtubePattern (js "youtube/x") = true.
Proof. vm_compute. reflexivity. Qed.

Example test_line_separator : test youtubePattern (js "youtube/" ++ [8232]) = false.
Proof. vm_compute. reflexivity. Qed.

Example urlMessage_code_units :
  urlMessage =
  [1055; 1086; 1078; 1072; 1083; 1091; 1081; 1089; 1090; 1072; 44; 32;
   1074; 1074; 1077; 1076; 1080; 1090; 1077; 32;
   1082; 1086; 1088; 1088; 1077; 1082; 1090; 1085; 1091; 1102; 32;
   1089; 1089; 1099; 1083; 1082; 1091; 32; 1085; 1072; 32;
   89; 111; 117; 84; 117; 98; 101; 32; 1074; 1080; 1076; 1077; 1086].
Proof. reflexivity. Qed.

Example addEventListener_null st :
  addEventListener None "blur" VideoUrlBlur st = Throw TypeError.
Proof. reflexivity. Qed.

Example removeChild_not_a_child :
  removeChild 7%nat (formPage [] []) = Throw NotFoundError.
Proof. reflexivity. Qed.

(** A toast on the form page, watched at 2000, 3000, 3299 and 3300 ms. *)
Example toast_at_2000 :
  (λ st, (body st, animationOf st 2%nat)) <$>
    final (runEvents [CallShowNotification (js "x") (Some (js "success")); Elapse 2000]
                     (formPage [] []))
  = Some ([0; 1; 2]%nat, Some (js "slideIn 0.3s ease")).
Proof. vm_compute. reflexivity. Qed.

Example toast_at_3000 :
  (λ st, (body st, animationOf st 2%nat, timers st)) <$>
    final (runEvents [CallShowNotification (js "x") (Some (js "success")); Elapse 3000]
                     (formPage [] []))
  = Some ([0; 1; 2]%nat, Some (js "slideOut 0.3s ease"), [(3300, Remove 2%nat)]).
Proof. vm_compute. reflexivity. Qed.

Example toast_at_3299 :
  body <$>
    final (runEvents [CallShowNotification (js "x") (Some (js "success"));
                      Elapse 1500; Elapse 1799]
                     (formPage [] []))
  = Some [0; 1; 2]%nat.
Proof. vm_compute. reflexivity. Qed.

Example toast_at_3300 :
  (λ st, (body st, timers st, now st)) <$>
    final (runEvents [CallShowNotification (js "x") (Some (js "success")); Elapse 3300]
                     (formPage [] []))
  = Some ([0; 1]%nat, [], 3300).
Proof. vm_compute. reflexivity. Qed.

(** Two toasts a second apart: each goes when its own time is up. *)
Example two_toasts :
  body <$>
    final (runEvents [CallShowNotification (js "a") None; Elapse 1000;
                      CallShowNotification (js "b") (Some (js "error")); Elapse 2500]
                     (formPage [] []))
  = Some [0; 1; 3]%nat.
Proof. vm_compute. reflexivity. Qed.

(** Leaving the URL field with a bad value, after the listeners are bound. *)
Example blur_after_load :
  (λ st, (borderColor st 0%nat, body st, timers st)) <$>
    final ((onDOMContentLoaded;; runEvents [UserInput 0%nat (js "ftp://example.com");
                                            UserBlur 0%nat])
             (formPage [] []))
  = Some (Some red, [0; 1; 2]%nat, [(3000, SlideOut 2%nat)]).
Proof. vm_compute. reflexivity. Qed.

(** ** The URL rule *)

Section UrlRule.

(** C1: for every string S, the blur listener of the video_url field marks
    the field valid (border colour #27ae60) iff S is empty or S matches
    the YouTube pattern, and then emits nothing; otherwise it marks the
    field invalid (border colour #e74c3c) and emits exactly one
    notification of kind error. *)
Theorem C1_url_rule (st : Page) (this : handle) (el : Element) (S : jsstring) :
  wf st → heap st !! this = Some el → value el = S →
  ∃ st', onVideoUrlBlur this st = Ok ((), st') ∧
    (borderColor st' this = Some green ↔ S = [] ∨ test youtubePattern S = true) ∧
    (S = [] ∨ test youtubePattern S = true → silent st st') ∧
    (¬ (S = [] ∨ test youtubePattern S = true) →
       borderColor st' this = Some red ∧
       ∃ n, emitted st st' n urlMessage (js "error")).
Proof.
  intros Hwf Hel <-.
  destruct (onVideoUrlBlur_cases st this el Hwf Hel)
    as (st' & Hrun & _ & _ & _ & _ & [(Hv & Hc & Hs) | ((Hne & Ht) & Hc & He)]);
    exists st'; (split; [done|]).
  - split; [done|]. split; [done|]. intros Hn. by destruct Hn.
  - assert (¬ (value el = [] ∨ test youtubePattern (value el) = true)) as Hn
      by (intros [?|?]; congruence).
    split; [|split].
    + rewrite Hc. split; [intros [=] | done].
    + intros Hv. by destruct Hn.
    + intros _. split; [done|]. by eexists.
Qed.

Lemma C1_url_rule_witness :
  wf (formPage (js "ftp://example.com") []) ∧
  ∃ st', onVideoUrlBlur 0%nat (formPage (js "ftp://example.com") []) = Ok ((), st') ∧
    (borderColor st' 0%nat = Some green ↔
       js "ftp://example.com" = [] ∨ test youtubePattern (js "ftp://example.com") = true) ∧
    (js "ftp://example.com" = [] ∨ test youtubePattern (js "ftp://example.com") = true →
       silent (formPage (js "ftp://example.com") []) st') ∧
    (¬ (js "ftp://example.com" = [] ∨ test youtubePattern (js "ftp://example.com") = true) →
       borderColor st' 0%nat = Some red ∧
       ∃ n, emitted (formPage (js "ftp://example.com") []) st' n urlMessage (js "error")).
Proof.
  split; [apply wf_formPage|].
  apply (C1_url_rule (formPage (js "ftp://example.com") []) 0%nat
                  (inputField (js "ftp://example.com")) (js "ftp://example.com")).
  - apply wf_formPage.
  - vm_compute. reflexivity.
  - reflexivity.
Defined.

(** C7: on "https://youtu.be/abc123" the listener gives a green border and
    no notification; on "ftp://example.com" a red border and exactly one
    error notification with the Russian message; on the empty string a
    green border and no notification. *)
Theorem C7_url_rule_scenario (st : Page) (this : handle) (el : Element) :
  wf st → heap st !! this = Some el →
  (value el = js "https://youtu.be/abc123" →
     ∃ st', onVideoUrlBlur this st = Ok ((), st') ∧
            borderColor st' this = Some (js "#27ae60") ∧ silent st st') ∧
  (value el = js "ftp://example.com" →
     ∃ st' n, onVideoUrlBlur this st = Ok ((), st') ∧
            borderColor st' this = Some (js "#e74c3c") ∧
            emitted st st' n
              (js "Пожалуйста, введите корректную ссылку на YouTube видео")
              (js "error")) ∧
  (value el = js "" →
     ∃ st', onVideoUrlBlur this st = Ok ((), st') ∧
            borderColor st' this = Some (js "#27ae60") ∧ silent st st').
Proof.
  intros Hwf Hel. split; [|split]; intros Hv.
  - apply (blur_on_accepted st this el Hwf Hel). right. rewrite Hv. by vm_compute.
  - destruct (blur_on_rejected st this el Hwf Hel) as (st' & ? & ? & ?).
    + rewrite Hv. by vm_compute.
    + rewrite Hv. by vm_compute.
    + by exists st', (fresh_handle (heap st)).
  - apply (blur_on_accepted st this el Hwf Hel). left. by rewrite Hv.
Qed.

Lemma C7_url_rule_scenario_witness :
  wf (formPage (js "ftp://example.com") []) ∧
  ∃ st' n, onVideoUrlBlur 0%nat (formPage (js "ftp://example.com") []) = Ok ((), st') ∧
    borderColor st' 0%nat = Some (js "#e74c3c") ∧
    emitted (formPage (js "ftp://example.com") []) st' n
      (js "Пожалуйста, введите корректную ссылку на YouTube видео") (js "error").
Proof.
  split; [apply wf_formPage|].
  apply (C7_url_rule_scenario (formPage (js "ftp://example.com") []) 0%nat
                           (inputField (js "ftp://example.com"))).
  - apply wf_formPage.
  - vm_compute. reflexivity.
  - reflexivity.
Defined.

Lemma schemes_cases (a : jsstring) :
  a ∈ schemes → a = [] ∨ a = js "http://" ∨ a = js "https://".
Proof. unfold schemes. rewrite !elem_of_cons, elem_of_nil. tauto. Qed.

Lemma wwws_cases (b : jsstring) : b ∈ wwws → b = [] ∨ b = js "www.".
Proof. unfold wwws. rewrite !elem_of_cons, elem_of_nil. tauto. Qed.

Lemma hosts_cases (h : jsstring) :
  h ∈ hosts → h = js "youtube.com" ∨ h = js "youtube" ∨ h = js "youtu.be".
Proof. unfold hosts. rewrite !elem_of_cons, elem_of_nil. tauto. Qed.

(** C9: a scheme/www prefix and a host followed by "/" and nothing more is
    not matched, and the field is marked invalid: the pattern wants at least
    one character after the slash. *)
Theorem C9_slash_needs_a_path (st : Page) (this : handle) (el : Element)
    (scheme www host : jsstring) :
  wf st → heap st !! this = Some el →
  scheme ∈ schemes → www ∈ wwws → host ∈ hosts →
  value el = scheme ++ www ++ host ++ js "/" →
  test youtubePattern (value el) = false ∧
  ∃ st', onVideoUrlBlur this st = Ok ((), st') ∧
         borderColor st' this = Some red ∧
         ∃ n, emitted st st' n urlMessage (js "error").
Proof.
  intros Hwf Hel Ha Hb Hh Hv.
  assert (value el ≠ [] ∧ test youtubePattern (value el) = false) as [Hne Ht].
  { rewrite Hv.
    apply schemes_cases in Ha as [-> | [-> | ->]];
      apply wwws_cases in Hb as [-> | ->];
      apply hosts_cases in Hh as [-> | [-> | ->]];
      by vm_compute. }
  split; [done|].
  destruct (blur_on_rejected st this el Hwf Hel Hne Ht) as (st' & ? & ? & ?).
  exists st'. eauto.
Qed.

Lemma C9_slash_needs_a_path_witness :
  wf (formPage (js "https://youtube.com/") []) ∧
  js "https://" ∈ schemes ∧ [] ∈ wwws ∧ js "youtube.com" ∈ hosts ∧
  test youtubePattern (js "https://youtube.com/") = false ∧
  ∃ st', onVideoUrlBlur 0%nat (formPage (js "https://youtube.com/") []) = Ok ((), st') ∧
         borderColor st' 0%nat = Some red ∧
         ∃ n, emitted (formPage (js "https://youtube.com/") []) st' n urlMessage (js "error").
Proof.
  assert (js "https://" ∈ schemes) as Ha by (vm_compute; set_solver).
  assert ([] ∈ wwws) as Hb by (vm_compute; set_solver).
  assert (js "youtube.com" ∈ hosts) as Hh by (vm_compute; set_solver).
  split; [apply wf_formPage|]. do 3 (split; [done|]).
  apply (C9_slash_needs_a_path (formPage (js "https://youtube.com/") []) 0%nat
           (inputField (js "https://youtube.com/")) (js "https://") [] (js "youtube.com")).
  - apply wf_formPage.
  - vm_compute. reflexivity.
  - exact Ha.
  - exact Hb.
  - exact Hh.
  - vm_compute. reflexivity.
Defined.

(** C10, as the code has it: an optional scheme, an optional "www.", then
    "youtube/" and a non-empty path with no line terminator is matched; the
    field is marked valid and nothing is emitted. *)
Theorem C10_bare_youtube_accepted (st : Page) (this : handle) (el : Element)
    (scheme www path : jsstring) :
  wf st → heap st !! this = Some el →
  scheme ∈ schemes → www ∈ wwws →
  path ≠ [] → Forall (λ c, isLineTerminator c = false) path →
  value el = scheme ++ www ++ js "youtube/" ++ path →
  test youtubePattern (value el) = true ∧
  ∃ st', onVideoUrlBlur this st = Ok ((), st') ∧
         borderColor st' this = Some green ∧ silent st st'.
Proof.
  intros Hwf Hel Ha Hb Hne HLT Hv.
  assert (test youtubePattern (value el) = true) as Ht.
  { apply youtubePattern_spec. exists scheme, www, (js "youtube"), path.
    repeat (split; [done || (vm_compute; set_solver)|]). by rewrite Hv. }
  split; [done|]. apply (blur_on_accepted st this el Hwf Hel). by right.
Qed.

Lemma C10_bare_youtube_accepted_witness :
  wf (formPage (js "youtube/x") []) ∧
  [] ∈ schemes ∧ [] ∈ wwws ∧ js "x" ≠ [] ∧
  Forall (λ c, isLineTerminator c = false) (js "x") ∧
  test youtubePattern (js "youtube/x") = true ∧
  ∃ st', onVideoUrlBlur 0%nat (formPage (js "youtube/x") []) = Ok ((), st') ∧
         borderColor st' 0%nat = Some green ∧ silent (formPage (js "youtube/x") []) st'.
Proof.
  assert ([] ∈ schemes) as Ha by (vm_compute; set_solver).
  assert ([] ∈ wwws) as Hb by (vm_compute; set_solver).
  assert (js "x" ≠ []) as Hne by (vm_compute; discriminate).
  assert (Forall (λ c, isLineTerminator c = false) (js "x")) as HLT
    by (vm_compute; repeat constructor).
  split; [apply wf_formPage|]. do 4 (split; [done|]).
  apply (C10_bare_youtube_accepted (formPage (js "youtube/x") []) 0%nat
           (inputField (js "youtube/x")) [] [] (js "x")).
  - apply wf_formPage.
  - vm_compute. reflexivity.
  - exact Ha.
  - exact Hb.
  - exact Hne.
  - exact HLT.
  - vm_compute. reflexivity.
Defined.

(** C10, as stated, fails when the character after "youtube/" is a line
    terminator: the input is of the stated form, yet the field is marked
    invalid and a notification is emitted. *)
Lemma C10_line_separator_rejected :
  [] ∈ schemes ∧ [] ∈ wwws ∧ [8232] ≠ ([] : jsstring) ∧
  test youtubePattern ([] ++ [] ++ js "youtube/" ++ [8232]) = false ∧
  ∃ st', onVideoUrlBlur 0%nat (formPage ([] ++ [] ++ js "youtube/" ++ [8232]) []) = Ok ((), st') ∧
         borderColor st' 0%nat = Some red ∧
         ∃ n, emitted (formPage ([] ++ [] ++ js "youtube/" ++ [8232]) []) st' n
                      urlMessage (js "error").
Proof.
  split; [vm_compute; set_solver|]. split; [vm_compute; set_solver|].
  split; [discriminate|]. split; [by vm_compute|].
  destruct (blur_on_rejected (formPage ([] ++ [] ++ js "youtube/" ++ [8232]) []) 0%nat
              (inputField ([] ++ [] ++ js "youtube/" ++ [8232])))
    as (st' & ? & ? & ?).
  - apply wf_formPage.
  - vm_compute. reflexivity.
  - vm_compute. discriminate.
  - by vm_compute.
  - exists st'. eauto.
Qed.

(** C3, as the code has it: the dot before "be" is escaped and optional,
    not a wildcard.  After any accepted prefix (an optional "http://" or
    "https://", an optional "www."), a host "youtu" + c + "be" followed by
    a slash and a path is matched iff c is the literal dot; with any other
    c, as in "https://youtuXbe/v", the pattern does not match and the field
    is marked invalid. *)
Theorem C3_youtu_be_dot_is_literal (st : Page) (this : handle) (el : Element)
    (scheme www : jsstring) (c : code_unit) (path : jsstring) :
  wf st → heap st !! this = Some el →
  scheme ∈ schemes → www ∈ wwws →
  value el = scheme ++ www ++ js "youtu" ++ [c] ++ js "be/" ++ path →
  (test youtubePattern (value el) = true ↔
     c = 46 ∧ path ≠ [] ∧ Forall (λ c, isLineTerminator c = false) path) ∧
  (c ≠ 46 →
     ∃ st', onVideoUrlBlur this st = Ok ((), st') ∧
            borderColor st' this = Some red ∧
            ∃ n, emitted st st' n urlMessage (js "error")).
Proof.
  intros Hwf Hel Hs Hw Hv.
  assert (test youtubePattern (value el) = true ↔
          c = 46 ∧ path ≠ [] ∧ Forall (λ c, isLineTerminator c = false) path) as Hiff.
  { rewrite Hv, youtubePattern_spec. split.
    - intros (a & b & h & w & Ha & Hb & Hh & Hne & HLT & Heq).
      apply schemes_cases in Hs as [-> | [-> | ->]];
        apply wwws_cases in Hw as [-> | ->];
        apply schemes_cases in Ha as [-> | [-> | ->]];
        apply wwws_cases in Hb as [-> | ->];
        apply hosts_cases in Hh as [-> | [-> | ->]];
        vm_compute in Heq; simplify_eq; done.
    - intros (-> & Hne & HLT).
      exists scheme, www, (js "youtu.be"), path.
      do 2 (split; [done|]). split; [vm_compute; set_solver|].
      do 2 (split; [done|]). done. }
  split; [done|]. intros Hc.
  destruct (blur_on_rejected st this el Hwf Hel) as (st' & ? & ? & ?).
  - rewrite Hv.
    apply schemes_cases in Hs as [-> | [-> | ->]];
      apply wwws_cases in Hw as [-> | ->]; vm_compute; discriminate.
  - destruct (test youtubePattern (value el)); [|done].
    destruct Hiff as [Hiff _]. by destruct (Hiff eq_refl).
  - exists st'. eauto.
Qed.

Lemma C3_youtu_be_dot_is_literal_witness :
  wf (formPage (js "https://youtuXbe/v") []) ∧
  js "https://" ∈ schemes ∧ [] ∈ wwws ∧
  (test youtubePattern (js "https://youtuXbe/v") = true ↔
     88 = 46 ∧ js "v" ≠ [] ∧ Forall (λ c, isLineTerminator c = false) (js "v")) ∧
  (88 ≠ 46 →
     ∃ st', onVideoUrlBlur 0%nat (formPage (js "https://youtuXbe/v") []) = Ok ((), st') ∧
            borderColor st' 0%nat = Some red ∧
            ∃ n, emitted (formPage (js "https://youtuXbe/v") []) st' n urlMessage (js "error")).
Proof.
  assert (js "https://" ∈ schemes) as Ha by (vm_compute; set_solver).
  assert ([] ∈ wwws) as Hb by (vm_compute; set_solver).
  split; [apply wf_formPage|]. do 2 (split; [done|]).
  apply (C3_youtu_be_dot_is_literal (formPage (js "https://youtuXbe/v") []) 0%nat
           (inputField (js "https://youtuXbe/v")) (js "https://") [] 88 (js "v")).
  - apply wf_formPage.
  - vm_compute. reflexivity.
  - exact Ha.
  - exact Hb.
  - vm_compute. reflexivity.
Defined.

(** C3, as stated, fails: "https://youtuXbe/v" is not matched and the field
    is marked invalid. *)
Lemma C3_youtuXbe_rejected :
  test youtubePattern (js "https://youtuXbe/v") = false ∧
  ∃ st', onVideoUrlBlur 0%nat (formPage (js "https://youtuXbe/v") []) = Ok ((), st') ∧
         borderColor st' 0%nat = Some red ∧
         ∃ n, emitted (formPage (js "https://youtuXbe/v") []) st' n urlMessage (js "error").
Proof.
  split; [by vm_compute|].
  destruct (blur_on_rejected (formPage (js "https://youtuXbe/v") []) 0%nat
              (inputField (js "https://youtuXbe/v")))
    as (st' & ? & ? & ?).
  - apply wf_formPage.
  - vm_compute. reflexivity.
  - vm_compute. discriminate.
  - by vm_compute.
  - exists st'. eauto.
Qed.

End UrlRule.

(** ** The password rule *)

Section PasswordRule.

Lemma onPasswordInput_eq st this el :
  heap st !! this = Some el →
  onPasswordInput this st =
  setStyle this "border-color"
    (if str_length (value el) <? 6 then red
     else if str_length (value el) <? 10 then orange else green) st.
Proof.
  intros Hel. unfold onPasswordInput, bind, getValue. rewrite Hel.
  by repeat case_match.
Qed.

(** C2: for every string P, the input listener of the password field sets
    the border colour to red iff len(P) < 6, to orange iff 6 <= len(P) < 10
    and to green iff len(P) >= 10; the colour depends on the length of P
    only, and the listener emits no notification. *)
Theorem C2_password_rule (st : Page) (this : handle) (el : Element) (P : jsstring) :
  heap st !! this = Some el → value el = P →
  ∃ st' c, onPasswordInput this st = Ok ((), st') ∧
    borderColor st' this = Some c ∧
    (c = red ↔ (length P < 6)%nat) ∧
    (c = orange ↔ (6 ≤ length P < 10)%nat) ∧
    (c = green ↔ (10 ≤ length P)%nat) ∧
    silent st st' ∧
    (∀ st2 this2 el2,
       heap st2 !! this2 = Some el2 → length (value el2) = length P →
       ∃ st2', onPasswordInput this2 st2 = Ok ((), st2') ∧
               borderColor st2' this2 = Some c).
Proof.
  intros Hel <-.
  set (colour := λ n : N, if n <? 6 then red else if n <? 10 then orange else green).
  destruct (borderColor_setStyle st this el (colour (str_length (value el))) Hel)
    as (st' & Hrun & _ & Hc & _ & Hs & _).
  exists st', (colour (str_length (value el))).
  split; [by rewrite (onPasswordInput_eq st this el Hel)|]. split; [done|].
  unfold colour, str_length.
  destruct (N.ltb_spec (N.of_nat (length (value el))) 6) as [H6 | H6];
    [|destruct (N.ltb_spec (N.of_nat (length (value el))) 10) as [H10 | H10]].
  all: destruct Hs as (Hs1 & Hs2 & Hs3).
  all: repeat split; try done; try lia; try (intros [=]).
  all: intros st2 this2 el2 Hel2 Hlen;
    destruct (borderColor_setStyle st2 this2 el2 (colour (str_length (value el2))) Hel2)
      as (st2' & Hrun2 & _ & Hc2 & _);
    exists st2'; (split; [by rewrite (onPasswordInput_eq st2 this2 el2 Hel2)|]);
    rewrite Hc2; unfold colour, str_length; rewrite Hlen;
    repeat case_match; try done;
    repeat match goal with
    | H : (_ <? _) = true |- _ => apply N.ltb_lt in H
    | H : (_ <? _) = false |- _ => apply N.ltb_ge in H
    end; lia.
Qed.

Lemma C2_password_rule_witness :
  ∃ st' c, onPasswordInput 1%nat (formPage [] (js "hunter2")) = Ok ((), st') ∧
    borderColor st' 1%nat = Some c ∧
    (c = red ↔ (length (js "hunter2") < 6)%nat) ∧
    (c = orange ↔ (6 ≤ length (js "hunter2") < 10)%nat) ∧
    (c = green ↔ (10 ≤ length (js "hunter2"))%nat) ∧
    silent (formPage [] (js "hunter2")) st' ∧
    (∀ st2 this2 el2,
       heap st2 !! this2 = Some el2 → length (value el2) = length (js "hunter2") →
       ∃ st2', onPasswordInput this2 st2 = Ok ((), st2') ∧
               borderColor st2' this2 = Some c).
Proof.
  apply (C2_password_rule (formPage [] (js "hunter2")) 1%nat (inputField (js "hunter2"))
                       (js "hunter2")).
  - vm_compute. reflexivity.
  - reflexivity.
Defined.

End PasswordRule.

(** ** Notifications *)

Section Notifier.

(** C4: the background of the node that showNotification(message, type)
    creates is chosen by type: "success" gives #27ae60, "error" gives
    #e74c3c, "info" and any other value give #3498db; an omitted type is
    "info". *)
Theorem C4_notification_background (st : Page) (message : jsstring)
    (type_arg : option jsstring) :
  ∃ st' e, showNotification message type_arg st = Ok ((), st') ∧
    heap st' !! fresh_handle (heap st) = Some e ∧
    heap st !! fresh_handle (heap st) = None ∧
    textContent e = message ∧
    className e = js "notification " ++ default (js "info") type_arg ∧
    (type_arg = None → className e = js "notification info") ∧
    (type_arg = Some (js "success") → style e !! "background" = Some (js "#27ae60")) ∧
    (type_arg = Some (js "error") → style e !! "background" = Some (js "#e74c3c")) ∧
    (type_arg = Some (js "info") → style e !! "background" = Some (js "#3498db")) ∧
    (type_arg = None → style e !! "background" = Some (js "#3498db")) ∧
    (∀ t, type_arg = Some t → t ≠ js "success" → t ≠ js "error" →
          style e !! "background" = Some (js "#3498db")).
Proof.
  eexists _, _. split; [apply showNotification_eq|]. simpl.
  split; [apply lookup_insert_eq|]. split; [apply fresh_handle_fresh|].
  split; [done|]. split; [done|]. split; [by intros ->|].
  unfold notificationNode. simpl. rewrite lookup_insert_eq.
  repeat split.
  - by intros ->.
  - by intros ->.
  - by intros ->.
  - by intros ->.
  - intros t -> H1 H2. simpl. unfold backgroundOf, strict_eq.
    by rewrite !bool_decide_eq_false_2.
Qed.

End Notifier.

(** ** Registration of the listeners *)

Section Registration.

(** C8: when no element has id video_url (likewise password), the
    DOMContentLoaded listener does not throw and registers no blur
    (respectively input) listener; each field is handled on its own. *)
Theorem C8_registration_tolerates_absence (st : Page) :
  ∃ st', onDOMContentLoaded st = Ok ((), st') ∧
    listeners st' = listeners st ++ blurListenerFor (byId st !! "video_url")
                                 ++ inputListenerFor (byId st !! "password") ∧
    (byId st !! "video_url" = None →
       ∀ h l, (h, "blur", l) ∈ listeners st' → (h, "blur", l) ∈ listeners st) ∧
    (byId st !! "password" = None →
       ∀ h l, (h, "input", l) ∈ listeners st' → (h, "input", l) ∈ listeners st) ∧
    heap st' = heap st ∧ byId st' = byId st ∧ body st' = body st ∧
    timers st' = timers st ∧ now st' = now st.
Proof.
  unfold onDOMContentLoaded, bind, getElementById.
  destruct (byId st !! "video_url") as [v|] eqn:Hv;
    destruct (byId st !! "password") as [p|] eqn:Hp; simpl;
    rewrite ?Hp; simpl; eexists; (split; [done|]); simpl;
    rewrite <- ?app_assoc, ?app_nil_r; repeat split; try done.
  all: intros _ h l; rewrite ?elem_of_app, ?list_elem_of_singleton;
    intros; destruct_or?; simplify_eq; done.
Qed.

End Registration.

(** ** The life of a notification *)

Section Lifecycle.

Lemma extract_min_perm l x r : extract_min l = Some (x, r) → l ≡ₚ x :: r.
Proof.
  revert x r. induction l as [|a l IH]; intros x r; simpl; [done|].
  destruct (extract_min l) as [[y r']|] eqn:Hl.
  - case_match; intros [= <- <-]; [done|].
    rewrite (IH y r' eq_refl). apply Permutation_swap.
  - intros [= <- <-]. destruct l; [done|]. simpl in Hl.
    destruct (extract_min l) as [[? ?]|]; [case_match|]; done.
Qed.

Lemma extract_min_least l x r :
  extract_min l = Some (x, r) → ∀ y, y ∈ l → x.1 ≤ y.1.
Proof.
  revert x r. induction l as [|a l IH]; intros x r; simpl; [done|].
  destruct (extract_min l) as [[z r']|] eqn:Hl.
  - destruct (N.leb_spec a.1 z.1) as [Hle | Hlt]; intros [= <- <-] y Hy;
      apply elem_of_cons in Hy as [-> | Hy]; try lia.
    + specialize (IH z r' eq_refl y Hy). lia.
    + exact (IH _ _ eq_refl y Hy).
  - intros [= <- <-] y Hy. destruct l; [|by destruct (extract_min l) as [[? ?]|]; simpl in Hl; repeat case_match].
    apply list_elem_of_singleton in Hy as ->. lia.
Qed.

Lemma extract_min_None l : extract_min l = None → l = [].
Proof.
  destruct l as [|a l]; [done|]. simpl.
  destruct (extract_min l) as [[? ?]|]; [case_match|]; done.
Qed.

Lemma timers_weight_perm l l' : l ≡ₚ l' → timers_weight l = timers_weight l'.
Proof. intros H. unfold timers_weight. by rewrite H. Qed.

Lemma stable_refl n st : stable n st st.
Proof. by repeat split. Qed.

Lemma stable_trans n st1 st2 st3 :
  stable n st1 st2 → stable n st2 st3 → stable n st1 st3.
Proof.
  intros (H1 & H2 & H3 & H4) (K1 & K2 & K3 & K4).
  split; [congruence|]. split; [by rewrite K2|]. split; [congruence|].
  intros x Hx. by rewrite K4, H4.
Qed.

Lemma grows_refl st : grows st st.
Proof. by repeat split. Qed.

Lemma grows_trans st1 st2 st3 : grows st1 st2 → grows st2 st3 → grows st1 st3.
Proof.
  intros (H1 & H2 & H3 & H4) (K1 & K2 & K3 & K4).
  split; [congruence|]. split; [congruence|]. split; [congruence|]. auto.
Qed.

Lemma steady_ret st : wf st → steady (ret ()) st.
Proof.
  intros Hwf. exists st. split; [done|]. split; [done|].
  split; [apply grows_refl | intros; apply stable_refl].
Qed.

Lemma steady_bind (c1 c2 : Js unit) st :
  steady c1 st →
  (∀ st', wf st' → grows st st' → steady c2 st') →
  steady (c1;; c2) st.
Proof.
  intros (st1 & H1 & Hwf1 & Hg1 & Hs1) H2.
  destruct (H2 st1 Hwf1 Hg1) as (st2 & H2' & Hwf2 & Hg2 & Hs2).
  exists st2. unfold bind. rewrite H1. split; [done|]. split; [done|].
  split; [by eapply grows_trans|]. intros n Hn.
  eapply stable_trans; [by apply Hs1|]. apply Hs2. by apply Hg1.
Qed.

(** An assignment to a property other than the animation. *)
Lemma steady_update h f st :
  (∀ e, style (f e) !! "animation" = style e !! "animation") →
  wf st → steady (update h f) st.
Proof.
  intros Hf Hwf. eexists. split; [done|]. split; [by apply wf_update|]. split.
  - repeat split; try done. simpl. intros k Hk. by apply lookup_alter_is_Some.
  - intros n _. repeat split; try done. unfold animationOf, styleOf. simpl.
    destruct (decide (h = n)) as [->|Hne].
    + rewrite lookup_alter_eq. destruct (heap st !! n); simpl; [apply Hf | done].
    + by rewrite lookup_alter_ne.
Qed.

Lemma steady_setBorder h c st : wf st → steady (setStyle h "border-color" c) st.
Proof.
  intros Hwf. apply steady_update; [|done].
  intros e. simpl. by rewrite lookup_insert_ne.
Qed.

Lemma steady_showNotification message type_arg st :
  wf st → steady (showNotification message type_arg) st.
Proof.
  intros Hwf. eexists. split; [apply showNotification_eq|].
  split; [eapply wf_showNotification; [done | apply showNotification_eq]|].
  pose proof (wf_fresh_not_in_body st Hwf) as Hfresh.
  split.
  - repeat split; try done. simpl. intros h Hh.
    destruct (decide (fresh_handle (heap st) = h)) as [<-|?].
    + rewrite lookup_insert_eq. by eexists.
    + by rewrite lookup_insert_ne.
  - intros n Hn. pose proof (fresh_handle_ne _ _ Hn) as Hne.
    repeat split; simpl; try done.
    + rewrite filter_ne_id by done. rewrite elem_of_app, list_elem_of_singleton. tauto.
    + rewrite filter_ne_id by done. set_solver.
    + unfold animationOf, styleOf. simpl. by rewrite lookup_insert_ne.
    + rewrite elem_of_app, list_elem_of_singleton.
      intros [? | ->]; [done|]. simpl in *. congruence.
    + set_solver.
Qed.

Lemma grows_live st st' h :
  grows st st' → is_Some (heap st !! h) → is_Some (heap st' !! h).
Proof. intros (_ & _ & _ & H). apply H. Qed.

Lemma steady_onVideoUrlBlur this st :
  wf st → is_Some (heap st !! this) → steady (onVideoUrlBlur this) st.
Proof.
  intros Hwf [el Hel]. unfold steady.
  destruct (decide (value el = [])) as [Hempty | Hne];
    [|destruct (test youtubePattern (value el)) eqn:Ht].
  1,2: rewrite (onVideoUrlBlur_accepted st this el) by auto; by apply steady_setBorder.
  rewrite (onVideoUrlBlur_rejected st this el) by auto.
  apply steady_bind; [by apply steady_setBorder|].
  intros st' Hwf' Hg. by apply steady_showNotification.
Qed.

Lemma steady_onPasswordInput this st :
  wf st → is_Some (heap st !! this) → steady (onPasswordInput this) st.
Proof.
  intros Hwf [el Hel]. unfold steady.
  rewrite (onPasswordInput_eq st this el Hel). by apply steady_setBorder.
Qed.

Lemma steady_runListeners ls field type st :
  wf st →
  (∀ x, x ∈ ls → is_Some (heap st !! x.1.1)) →
  steady (runListeners ls field type) st.
Proof.
  revert st. induction ls as [|[[h ty] l] ls IH]; intros st Hwf Hlive; simpl.
  - by apply steady_ret.
  - apply steady_bind.
    + destruct (bool_decide (h = field) && bool_decide (ty = type)) eqn:Hb;
        [|by apply steady_ret].
      apply andb_true_iff in Hb as [->%bool_decide_eq_true _].
      assert (is_Some (heap st !! field)) as Hf by (apply (Hlive (field, ty, l)); left).
      destruct l; [by apply steady_onVideoUrlBlur | by apply steady_onPasswordInput].
    + intros st' Hwf' Hg. apply IH; [done|].
      intros x Hx. eapply grows_live; [done|]. apply Hlive. by right.
Qed.

Lemma steady_dispatchEvent field type st :
  wf st → steady (dispatchEvent field type) st.
Proof.
  intros Hwf. unfold steady, dispatchEvent.
  apply steady_runListeners; [done|]. apply (wf_listeners_live _ Hwf).
Qed.

Lemma steady_setValue h v st : wf st → steady (setValue h v) st.
Proof. intros Hwf. by apply steady_update. Qed.

(** The stage of [n] survives such a step. *)
Lemma lifecycle_stable n t0 st st' :
  grows st st' → stable n st st' →
  lifecycle n t0 st → pending_later n st →
  lifecycle n t0 st' ∧ pending_later n st'.
Proof.
  intros Hg (Hnow & Hbody & Hanim & Htimers) [Hn Hphase] Hlater. split.
  - split; [by eapply grows_live|]. rewrite Hnow. unfold displayed, dismissing.
    rewrite Hbody, Hanim, !Htimers by done. done.
  - intros x Hx Htarget. rewrite Hnow. apply Hlater; [|done]. by apply Htimers.
Qed.

(** *** Timer callbacks *)

Lemma timers_unique st x y :
  wf st → x ∈ timers st → y ∈ timers st → target x.2 = target y.2 → x = y.
Proof.
  intros Hwf. pose proof (wf_timers_nodup _ Hwf) as Hnd. revert Hnd.
  induction (timers st) as [|a l IH]; simpl; intros Hnd Hx Hy Heq.
  - by apply not_elem_of_nil in Hx.
  - apply NoDup_cons in Hnd as [Ha Hnd].
    apply elem_of_cons in Hx as [-> | Hx]; apply elem_of_cons in Hy as [-> | Hy].
    + done.
    + destruct Ha. rewrite Heq. apply list_elem_of_fmap. by exists y.
    + destruct Ha. rewrite <- Heq. apply list_elem_of_fmap. by exists x.
    + by apply IH.
Qed.

Lemma animationOf_heap st st' n :
  heap st' !! n = heap st !! n → animationOf st' n = animationOf st n.
Proof. intros H. unfold animationOf, styleOf. by rewrite H. Qed.

(** Running the timer that is due first: the page stays well formed, the
    stage of a notification moves on when the timer is its own, and the
    pending work shrinks. *)
Lemma runCallback_step st due cb others :
  wf st →
  extract_min (timers st) = Some ((due, cb), others) →
  ∃ st', runCallback cb (set_now (N.max (now st) due) (set_timers (λ _, others) st))
         = Ok ((), st') ∧
    wf st' ∧
    now st' = N.max (now st) due ∧
    (timers_weight (timers st') < timers_weight (timers st))%nat ∧
    ∀ n t0, lifecycle n t0 st → lifecycle n t0 st'.
Proof.
  intros Hwf Hmin.
  pose proof (extract_min_perm _ _ _ Hmin) as Hperm.
  pose proof (extract_min_least _ _ _ Hmin) as Hleast. simpl in Hleast.
  assert ((due, cb) ∈ timers st) as Hin by (rewrite Hperm; left).
  assert (∀ x, x ∈ others → x ∈ timers st) as Hsub
    by (intros x Hx; rewrite Hperm; by right).
  assert (∀ x, x ∈ timers st → target x.2 ≠ target cb → x ∈ others) as Hother.
  { intros x Hx Hne. rewrite Hperm in Hx. apply elem_of_cons in Hx as [-> | Hx]; done. }
  pose proof (wf_timers_body _ Hwf _ Hin) as Hbody. simpl in Hbody.
  assert (NoDup (target cb :: map (λ x, target x.2) others)) as Hnd.
  { pose proof (wf_timers_nodup _ Hwf) as H. by rewrite Hperm in H. }
  apply NoDup_cons in Hnd as [Hfresh Hnd].
  assert (∀ x, x ∈ others → target x.2 ≠ target cb) as Hdiff.
  { intros x Hx Heq. apply Hfresh. rewrite <- Heq. apply list_elem_of_fmap. by exists x. }
  assert (∀ x, x ∈ timers st → target x.2 = target cb → x = (due, cb)) as Huniq.
  { intros x Hx Heq. by apply (timers_unique st). }
  destruct Hwf as [W1 W2 W3 W4 W5 W6].
  destruct cb as [m | m]; simpl in *.
  - (* notification.style.animation = 'slideOut 0.3s ease'; setTimeout(..., 300) *)
    eexists. split; [done|]. simpl. split; [|split; [done|split]].
    + split; simpl; try done.
      * intros h Hh. apply lookup_alter_is_Some. auto.
      * rewrite map_app. simpl. apply NoDup_app. split; [done|].
        split; [|apply NoDup_singleton].
        intros h Hh ->%list_elem_of_singleton. done.
      * intros x [Hx | ->%list_elem_of_singleton]%elem_of_app; simpl; auto.
      * intros x Hx. apply lookup_alter_is_Some. auto.
      * intros id h Hh. apply lookup_alter_is_Some. eauto.
    + rewrite (timers_weight_perm _ _ Hperm).
      unfold timers_weight. rewrite sum_list_with_app. simpl. lia.
    + intros n t0 [Hn Hphase].
      split; simpl; [by apply lookup_alter_is_Some|].
      destruct (decide (m = n)) as [-> | Hne].
      * right. left.
        destruct Hphase as [[Hle (Hb & Ha & Ht)] | [[Hle (Hb & Ha & Ht)] | [Hle Hb]]].
        -- apply Huniq in Ht as [= Hdue]; [|done]. subst due.
           split; [lia|]. split; [done|]. split.
           { unfold animationOf, styleOf. simpl. rewrite lookup_alter_eq.
             destruct Hn as [e ->]. simpl. by rewrite lookup_insert_eq. }
           apply elem_of_app. right. apply list_elem_of_singleton. f_equal. lia.
        -- by apply Huniq in Ht.
        -- done.
      * unfold displayed, dismissing. simpl.
        rewrite (animationOf_heap st) by (simpl; by rewrite lookup_alter_ne).
        destruct Hphase as [[Hle (Hb & Ha & Ht)] | [[Hle (Hb & Ha & Ht)] | [Hle Hb]]].
        -- left. specialize (Hleast _ Ht). simpl in Hleast.
           split; [lia|]. split; [done|]. split; [done|].
           apply elem_of_app. left. apply Hother; [done|]. simpl. congruence.
        -- right. left. specialize (Hleast _ Ht). simpl in Hleast.
           split; [lia|]. split; [done|]. split; [done|].
           apply elem_of_app. left. apply Hother; [done|]. simpl. congruence.
        -- right. right. split; [lia | done].
  - (* document.body.removeChild(notification) *)
    unfold removeChild. simpl. rewrite bool_decide_eq_true_2 by done.
    eexists. split; [done|]. simpl. split; [|split; [done|split]].
    + split; simpl; try done.
      * by apply NoDup_filter.
      * intros h [_ Hh]%list_elem_of_filter. auto.
      * intros x Hx. apply list_elem_of_filter. split; [by apply Hdiff | auto].
    + rewrite (timers_weight_perm _ _ Hperm). unfold timers_weight. simpl. lia.
    + intros n t0 [Hn Hphase].
      split; simpl; [done|].
      unfold displayed, dismissing, animationOf, styleOf. simpl.
      rewrite list_elem_of_filter.
      destruct (decide (m = n)) as [-> | Hne].
      * right. right.
        destruct Hphase as [[Hle (Hb & Ha & Ht)] | [[Hle (Hb & Ha & Ht)] | [Hle Hb]]].
        -- by apply Huniq in Ht.
        -- apply Huniq in Ht as [= Hdue]; [|done]. subst due.
           split; [lia|]. by intros [? _].
        -- done.
      * destruct Hphase as [[Hle (Hb & Ha & Ht)] | [[Hle (Hb & Ha & Ht)] | [Hle Hb]]].
        -- left. specialize (Hleast _ Ht). simpl in Hleast.
           split; [lia|]. split; [done|]. split; [done|].
           apply Hother; [done|]. simpl. congruence.
        -- right. left. specialize (Hleast _ Ht). simpl in Hleast.
           split; [lia|]. split; [done|]. split; [done|].
           apply Hother; [done|]. simpl. congruence.
        -- right. right. split; [lia|]. by intros [_ ?].
Qed.

Lemma wf_set_now t st : wf st → wf (set_now t st).
Proof. intros [? ? ? ? ? ?]. by split. Qed.

(** Moving the clock to [t] when no pending timer is due by then. *)
Lemma lifecycle_set_now n t0 t st :
  now st ≤ t → (∀ x, x ∈ timers st → t < x.1) →
  lifecycle n t0 st → lifecycle n t0 (set_now (N.max (now st) t) st).
Proof.
  intros Hnow Hpend [Hn Hphase]. split; [done|]. simpl.
  destruct Hphase as [[Hle (Hb & Ha & Ht)] | [[Hle (Hb & Ha & Ht)] | [Hle Hb]]].
  - left. specialize (Hpend _ Ht). simpl in Hpend. split; [lia | done].
  - right. left. specialize (Hpend _ Ht). simpl in Hpend. split; [lia | done].
  - right. right. split; [lia | done].
Qed.

(** The timers that are due by [t] all run, the fuel is enough, and the
    clock ends at [t] with every pending timer still to come. *)
Lemma run_timers_ok fuel t st :
  wf st → now st ≤ t →
  (timers_weight (timers st) ≤ fuel)%nat →
  ∃ st', run_timers fuel t st = Ok ((), st') ∧
    wf st' ∧ now st' = t ∧
    (∀ x, x ∈ timers st' → t < x.1) ∧
    listeners st' = listeners st ∧
    ∀ n t0, lifecycle n t0 st → lifecycle n t0 st'.
Proof.
  revert st. induction fuel as [|fuel IH]; intros st Hwf Hnow Hfuel.
  all: assert (∀ st', (∀ x, x ∈ timers st → t < x.1) →
                 st' = set_now (N.max (now st) t) st →
                 ∃ st'', Ok ((), st') = Ok ((), st'') ∧
                   wf st'' ∧ now st'' = t ∧ (∀ x, x ∈ timers st'' → t < x.1) ∧
                   listeners st'' = listeners st ∧
                   ∀ n t0, lifecycle n t0 st → lifecycle n t0 st'') as Hidle
    by (intros st' Hpend ->; eexists; split; [done|];
        split; [by apply wf_set_now|]; split; [simpl; lia|];
        split; [done|]; split; [done|];
        intros n t0; by apply lifecycle_set_now).
  all: simpl; destruct (extract_min (timers st)) as [[[due cb] others]|] eqn:Hmin.
  all: try (apply Hidle; [|done];
            apply extract_min_None in Hmin; rewrite Hmin;
            intros x Hx; by apply not_elem_of_nil in Hx).
  all: pose proof (extract_min_least _ _ _ Hmin) as Hleast; simpl in Hleast.
  all: destruct (N.leb_spec due t) as [Hdue | Hdue].
  all: try (apply Hidle; [|done]; intros x Hx; specialize (Hleast x Hx); lia).
  - (* out of fuel with a timer due: the weight says otherwise *)
    pose proof (extract_min_perm _ _ _ Hmin) as Hperm.
    rewrite (timers_weight_perm _ _ Hperm) in Hfuel.
    unfold timers_weight in Hfuel. simpl in Hfuel. destruct cb; simpl in Hfuel; lia.
  - (* a timer is due: run it, then the rest *)
    destruct (runCallback_step st due cb others Hwf Hmin)
      as (st1 & Hrun & Hwf1 & Hnow1 & Hweight & Hlife1).
    unfold bind. rewrite Hrun.
    destruct (IH st1 Hwf1) as (st2 & Hrun2 & Hwf2 & Hnow2 & Hpend2 & Hl2 & Hlife2);
      [lia | lia |].
    exists st2. split; [done|]. split; [done|]. split; [done|]. split; [done|].
    split; [|by auto].
    rewrite Hl2. clear -Hrun. destruct cb; simpl in Hrun.
    + by injection Hrun as <-.
    + unfold removeChild in Hrun. case_bool_decide; [|done]. by injection Hrun as <-.
Qed.

(** One event: it completes, the page stays well formed, and each
    notification is at the stage its age asks for. *)
Lemma runEvent_step ev st :
  wf st →
  ∃ st', runEvent ev st = Ok ((), st') ∧
    wf st' ∧ now st' = now st + duration ev ∧
    ∀ n t0, lifecycle n t0 st → pending_later n st →
            lifecycle n t0 st' ∧ pending_later n st'.
Proof.
  intros Hwf.
  assert (∀ c, steady c st →
            ∃ st', c st = Ok ((), st') ∧ wf st' ∧ now st' = now st + 0 ∧
              ∀ n t0, lifecycle n t0 st → pending_later n st →
                      lifecycle n t0 st' ∧ pending_later n st') as Hsteady.
  { intros c (st' & Hrun & Hwf' & Hg & Hs). exists st'. split; [done|]. split; [done|].
    split; [destruct Hg as (_ & _ & -> & _); lia|].
    intros n t0 Hlife Hlater. apply (lifecycle_stable n t0 st st'); try done.
    apply Hs. by destruct Hlife. }
  destruct ev as [dt | field v | field | message type_arg]; simpl.
  - unfold elapse.
    destruct (run_timers_ok (timers_weight (timers st)) (now st + dt) st)
      as (st' & Hrun & Hwf' & Hnow' & Hpend & _ & Hlife'); [done | lia | lia |].
    exists st'. split; [done|]. split; [done|]. split; [done|].
    intros n t0 Hlife _. split; [by apply Hlife'|].
    intros x Hx _. rewrite Hnow'. by apply Hpend.
  - apply Hsteady. apply steady_bind; [by apply steady_setValue|].
    intros st' Hwf' Hg. by apply steady_dispatchEvent.
  - apply Hsteady. by apply steady_dispatchEvent.
  - apply Hsteady. by apply steady_showNotification.
Qed.

Lemma runEvents_steps evs st :
  wf st →
  ∃ st', runEvents evs st = Ok ((), st') ∧
    wf st' ∧ now st' = now st + elapsed evs ∧
    ∀ n t0, lifecycle n t0 st → pending_later n st →
            lifecycle n t0 st' ∧ pending_later n st'.
Proof.
  revert st. induction evs as [|ev evs IH]; intros st Hwf; simpl.
  - exists st. split; [done|]. split; [done|]. split; [lia | done].
  - destruct (runEvent_step ev st Hwf) as (st1 & Hrun & Hwf1 & Hnow1 & Hlife1).
    destruct (IH st1 Hwf1) as (st2 & Hrun2 & Hwf2 & Hnow2 & Hlife2).
    exists st2. unfold bind. rewrite Hrun. split; [done|]. split; [done|].
    split; [lia|]. intros n t0 Hlife Hlater.
    destruct (Hlife1 n t0 Hlife Hlater) as [? ?]. by apply Hlife2.
Qed.

(** The DOMContentLoaded listener keeps the page well formed. *)
Lemma wf_onDOMContentLoaded st :
  wf st → ∃ st', onDOMContentLoaded st = Ok ((), st') ∧ wf st'.
Proof.
  intros Hwf. pose proof Hwf as [H1 H2 H3 H4 H5 H6].
  unfold onDOMContentLoaded, bind, getElementById.
  destruct (byId st !! "video_url") as [v|] eqn:Hv;
    destruct (byId st !! "password") as [p|] eqn:Hp; simpl;
    rewrite ?Hp; simpl; eexists; (split; [done|]); split; simpl; try done.
  all: intros x; rewrite ?elem_of_app, ?list_elem_of_singleton;
    intros; destruct_or?; simplify_eq; simpl; eauto.
Qed.

(** No run of the script throws, runs out of fuel or leaves the pages of
    [wf]: the listeners are bound on a loaded page, then anything happens. *)
Theorem reachable_wf nodes ids evs :
  NoDup (map fst nodes) →
  (∀ x, x ∈ ids → x.2 ∈ map fst nodes) →
  ∃ st', (onDOMContentLoaded;; runEvents evs) (loadedPage nodes ids) = Ok ((), st') ∧
         wf st'.
Proof.
  intros Hnd Hids.
  destruct (wf_onDOMContentLoaded _ (wf_loadedPage nodes ids Hnd Hids))
    as (st1 & Hrun1 & Hwf1).
  destruct (runEvents_steps evs st1 Hwf1) as (st2 & Hrun2 & Hwf2 & _).
  exists st2. unfold bind. by rewrite Hrun1.
Qed.

(** The stage a settled page shows, by the age of the notification. *)
Lemma lifecycle_by_age n t0 st :
  lifecycle n t0 st → pending_later n st →
  (now st < t0 + 3000 → displayed n t0 st) ∧
  (t0 + 3000 ≤ now st < t0 + 3300 → dismissing n t0 st) ∧
  (t0 + 3300 ≤ now st → n ∉ body st).
Proof.
  intros [_ Hphase] Hlater.
  destruct Hphase as [[Hle Hd] | [[Hle Hd] | [Hle Hb]]].
  - pose proof Hd as (_ & _ & Ht). pose proof (Hlater _ Ht eq_refl) as Hlt.
    simpl in Hlt. split; [done|]. split; intros; lia.
  - pose proof Hd as (_ & _ & Ht). pose proof (Hlater _ Ht eq_refl) as Hlt.
    simpl in Hlt. split; [intros; lia|]. split; [done | intros; lia].
  - split; [intros; lia|]. split; [intros; lia | done].
Qed.

(** Right after the call the notification is on display. *)
Lemma showNotification_starts message type_arg st :
  wf st →
  ∃ st', showNotification message type_arg st = Ok ((), st') ∧ wf st' ∧
    emitted st st' (fresh_handle (heap st)) message (default (js "info") type_arg) ∧
    fresh_handle (heap st) ∉ body st ∧
    lifecycle (fresh_handle (heap st)) (now st) st' ∧
    pending_later (fresh_handle (heap st)) st' ∧ now st' = now st.
Proof.
  intros Hwf.
  destruct (showNotification_emitted message type_arg st Hwf)
    as (st' & Hrun & Hem & Hnow & _).
  pose proof Hem as (Hfresh & _ & Hnode & Hbody & Htimers).
  exists st'. split; [done|]. split; [by eapply wf_showNotification|].
  split; [done|]. split; [by apply wf_fresh_not_in_body|].
  split; [|split; [|done]].
  - split; [by eexists|]. left. rewrite Hnow. split; [lia|].
    split; [rewrite Hbody; set_solver|]. split; [|rewrite Htimers; set_solver].
    unfold animationOf, styleOf. rewrite Hnode. simpl.
    by rewrite lookup_insert_ne.
  - intros x Hx Htarget. rewrite Htimers in Hx.
    apply elem_of_app in Hx as [Hx | ->%list_elem_of_singleton]; [|simpl; lia].
    apply (wf_timers_body _ Hwf) in Hx. rewrite Htarget in Hx.
    apply (wf_body_live _ Hwf) in Hx as [e He]. congruence.
Qed.

(** C5: every call of showNotification creates exactly one node, a child
    of the body right after the call and for the first 3000 ms (so at
    2000 ms); from 3000 ms it plays the slide-out animation, and 300 ms
    later it is removed, so it is absent from 3300 ms on.  Whatever else
    happens on the page meanwhile, every timer fires and none throws: there
    is no way to cancel. *)
Theorem C5_notification_lifecycle (st : Page) (message : jsstring)
    (type_arg : option jsstring) :
  wf st →
  ∃ st1 n, showNotification message type_arg st = Ok ((), st1) ∧
    emitted st st1 n message (default (js "info") type_arg) ∧
    n ∉ body st ∧ NoDup (body st1) ∧
    ∀ evs, ∃ st2, runEvents evs st1 = Ok ((), st2) ∧
      now st2 = now st + elapsed evs ∧
      (elapsed evs < 3000 →
         n ∈ body st2 ∧ animationOf st2 n = Some (js "slideIn 0.3s ease")) ∧
      (3000 ≤ elapsed evs < 3300 →
         n ∈ body st2 ∧ animationOf st2 n = Some (js "slideOut 0.3s ease")) ∧
      (3300 ≤ elapsed evs → n ∉ body st2).
Proof.
  intros Hwf.
  destruct (showNotification_starts message type_arg st Hwf)
    as (st1 & Hrun & Hwf1 & Hem & Hfresh & Hlife & Hlater & Hnow).
  exists st1, (fresh_handle (heap st)). do 3 (split; [done|]).
  split; [apply (wf_body_nodup _ Hwf1)|]. intros evs.
  destruct (runEvents_steps evs st1 Hwf1) as (st2 & Hrun2 & Hwf2 & Hnow2 & Hkeep).
  destruct (Hkeep _ _ Hlife Hlater) as [Hlife2 Hlater2].
  exists st2. split; [done|]. split; [lia|].
  destruct (lifecycle_by_age _ _ st2 Hlife2 Hlater2) as (H1 & H2 & H3).
  split; [|split].
  - intros Hage. destruct H1 as (? & ? & _); [lia | done].
  - intros Hage. destruct H2 as (? & ? & _); [lia | done].
  - intros Hage. apply H3. lia.
Qed.

Lemma C5_notification_lifecycle_witness :
  wf (formPage [] []) ∧
  ∃ st1 n, showNotification (js "x") (Some (js "success")) (formPage [] []) = Ok ((), st1) ∧
    emitted (formPage [] []) st1 n (js "x") (default (js "info") (Some (js "success"))) ∧
    n ∉ body (formPage [] []) ∧ NoDup (body st1) ∧
    ∀ evs, ∃ st2, runEvents evs st1 = Ok ((), st2) ∧
      now st2 = now (formPage [] []) + elapsed evs ∧
      (elapsed evs < 3000 →
         n ∈ body st2 ∧ animationOf st2 n = Some (js "slideIn 0.3s ease")) ∧
      (3000 ≤ elapsed evs < 3300 →
         n ∈ body st2 ∧ animationOf st2 n = Some (js "slideOut 0.3s ease")) ∧
      (3300 ≤ elapsed evs → n ∉ body st2).
Proof.
  split; [apply wf_formPage|].
  apply (C5_notification_lifecycle (formPage [] []) (js "x") (Some (js "success"))).
  apply wf_formPage.
Defined.

(** C6: run twice on the same value the blur listener gives the same border
    colour both times; on an invalid value each run emits a notification of
    its own. *)
Theorem C6_url_rule_idempotent (st : Page) (this : handle) (el : Element) (S : jsstring) :
  wf st → heap st !! this = Some el → value el = S →
  ∃ st1 st2, onVideoUrlBlur this st = Ok ((), st1) ∧
    onVideoUrlBlur this st1 = Ok ((), st2) ∧
    is_Some (borderColor st1 this) ∧
    borderColor st2 this = borderColor st1 this ∧
    (S = [] ∨ test youtubePattern S = true → silent st st1 ∧ silent st1 st2) ∧
    (¬ (S = [] ∨ test youtubePattern S = true) →
       ∃ n1 n2, n1 ≠ n2 ∧
         emitted st st1 n1 urlMessage (js "error") ∧
         emitted st1 st2 n2 urlMessage (js "error") ∧
         body st2 = body st ++ [n1; n2]).
Proof.
  intros Hwf Hel <-.
  destruct (onVideoUrlBlur_cases st this el Hwf Hel)
    as (st1 & Hrun1 & Hwf1 & Hv1 & _ & _ & Hcase1).
  destruct (heap st1 !! this) as [el1|] eqn:Hel1; [|done].
  simpl in Hv1. injection Hv1 as Hv1.
  destruct (onVideoUrlBlur_cases st1 this el1 Hwf1 Hel1)
    as (st2 & Hrun2 & _ & _ & _ & _ & Hcase2).
  rewrite Hv1 in Hcase2.
  exists st1, st2. do 2 (split; [done|]).
  destruct Hcase1 as [(Hok & Hc1 & Hs1) | ((Hne & Ht) & Hc1 & He1)];
    destruct Hcase2 as [(Hok2 & Hc2 & Hs2) | ((Hne2 & Ht2) & Hc2 & He2)];
    try (destruct Hok as [?|?]; congruence);
    try (destruct Hok2 as [?|?]; congruence).
  - split; [by eexists|]. split; [congruence|]. split; [done|]. intros Hn. by destruct Hn.
  - split; [by eexists|]. split; [congruence|].
    split; [intros [?|?]; congruence|]. intros _.
    exists (fresh_handle (heap st)), (fresh_handle (heap st1)).
    split; [|split; [done|split; [done|]]].
    + destruct He1 as (_ & _ & Hnode & _). destruct He2 as (Hfresh & _).
      intros Heq. rewrite <- Heq in Hfresh. congruence.
    + destruct He1 as (_ & _ & _ & Hb1 & _). destruct He2 as (_ & _ & _ & Hb2 & _).
      by rewrite Hb2, Hb1, <- app_assoc.
Qed.

Lemma C6_url_rule_idempotent_witness :
  wf (formPage (js "ftp://example.com") []) ∧
  ∃ st1 st2,
    onVideoUrlBlur 0%nat (formPage (js "ftp://example.com") []) = Ok ((), st1) ∧
    onVideoUrlBlur 0%nat st1 = Ok ((), st2) ∧
    is_Some (borderColor st1 0%nat) ∧
    borderColor st2 0%nat = borderColor st1 0%nat ∧
    (js "ftp://example.com" = [] ∨ test youtubePattern (js "ftp://example.com") = true →
       silent (formPage (js "ftp://example.com") []) st1 ∧ silent st1 st2) ∧
    (¬ (js "ftp://example.com" = [] ∨ test youtubePattern (js "ftp://example.com") = true) →
       ∃ n1 n2, n1 ≠ n2 ∧
         emitted (formPage (js "ftp://example.com") []) st1 n1 urlMessage (js "error") ∧
         emitted st1 st2 n2 urlMessage (js "error") ∧
         body st2 = body (formPage (js "ftp://example.com") []) ++ [n1; n2]).
Proof.
  split; [apply wf_formPage|].
  apply (C6_url_rule_idempotent (formPage (js "ftp://example.com") []) 0%nat
           (inputField (js "ftp://example.com")) (js "ftp://example.com")).
  - apply wf_formPage.
  - vm_compute. reflexivity.
  - reflexivity.
Defined.

End Lifecycle.

(** ** More on the YouTube pattern *)

Section PatternFacts.

Lemma schemes_no_line_terminator a :
  a ∈ schemes → Forall (λ c, isLineTerminator c = false) a.
Proof.
  intros [-> | [-> | ->]]%schemes_cases; vm_compute; repeat constructor.
Qed.

Lemma wwws_no_line_terminator b :
  b ∈ wwws → Forall (λ c, isLineTerminator c = false) b.
Proof. intros [-> | ->]%wwws_cases; vm_compute; repeat constructor. Qed.

Lemma hosts_no_line_terminator h :
  h ∈ hosts → Forall (λ c, isLineTerminator c = false) h.
Proof.
  intros [-> | [-> | ->]]%hosts_cases; vm_compute; repeat constructor.
Qed.

Lemma isYoutubeUrl_no_line_terminator s :
  isYoutubeUrl s → Forall (λ c, isLineTerminator c = false) s.
Proof.
  intros (a & b & h & w & Ha & Hb & Hh & _ & Hw & ->).
  repeat (apply Forall_app; split); try done.
  - by apply schemes_no_line_terminator.
  - by apply wwws_no_line_terminator.
  - by apply hosts_no_line_terminator.
  - vm_compute. repeat constructor.
Qed.

(** X1: the pattern accepts exactly the strings made of an optional
    "http://" or "https://", an optional "www.", one of the hosts
    "youtube.com", "youtube" and "youtu.be", a slash, and a non-empty rest
    that holds no line terminator; nothing may come before or after. *)
Theorem X1_pattern_language (s : jsstring) :
  test youtubePattern s = true ↔ isYoutubeUrl s.
Proof. apply youtubePattern_spec. Qed.

(** X2: a value that holds a line terminator anywhere (LF, CR, U+2028 or
    U+2029) is never accepted: the pattern does not match and the blur
    listener marks the field invalid and emits an error notification. *)
Theorem X2_line_break_rejected (st : Page) (this : handle) (el : Element)
    (c : code_unit) :
  wf st → heap st !! this = Some el →
  c ∈ value el → isLineTerminator c = true →
  test youtubePattern (value el) = false ∧
  ∃ st', onVideoUrlBlur this st = Ok ((), st') ∧
         borderColor st' this = Some red ∧
         ∃ n, emitted st st' n urlMessage (js "error").
Proof.
  intros Hwf Hel Hc HLT.
  assert (test youtubePattern (value el) = false) as Ht.
  { destruct (test youtubePattern (value el)) eqn:Ht; [|done].
    apply youtubePattern_spec, isYoutubeUrl_no_line_terminator in Ht.
    rewrite Forall_forall in Ht. specialize (Ht c Hc). congruence. }
  split; [done|].
  destruct (blur_on_rejected st this el Hwf Hel) as (st' & ? & ? & ?); [|done|].
  - intros Hnil. rewrite Hnil in Hc. by apply not_elem_of_nil in Hc.
  - exists st'. eauto.
Qed.

Lemma X2_line_break_rejected_witness :
  wf (formPage (js "https://youtu.be/abc" ++ [10]) []) ∧
  test youtubePattern (js "https://youtu.be/abc" ++ [10]) = false ∧
  ∃ st', onVideoUrlBlur 0%nat (formPage (js "https://youtu.be/abc" ++ [10]) [])
         = Ok ((), st') ∧
         borderColor st' 0%nat = Some red ∧
         ∃ n, emitted (formPage (js "https://youtu.be/abc" ++ [10]) []) st' n
                      urlMessage (js "error").
Proof.
  split; [apply wf_formPage|].
  apply (X2_line_break_rejected (formPage (js "https://youtu.be/abc" ++ [10]) []) 0%nat
           (inputField (js "https://youtu.be/abc" ++ [10])) 10).
  - apply wf_formPage.
  - vm_compute. reflexivity.
  - vm_compute. apply list_elem_of_In. vm_compute. tauto.
  - vm_compute. reflexivity.
Defined.

(** X3: the pattern is anchored at the start and the value is not trimmed:
    a value whose first code unit is not "h", "w" or "y" (a leading space,
    an upper-case letter) is not matched, and the field is marked
    invalid. *)
Theorem X3_first_unit (st : Page) (this : handle) (el : Element)
    (c : code_unit) (s : jsstring) :
  wf st → heap st !! this = Some el → value el = c :: s →
  c ≠ 104 → c ≠ 119 → c ≠ 121 →
  test youtubePattern (value el) = false ∧
  ∃ st', onVideoUrlBlur this st = Ok ((), st') ∧
         borderColor st' this = Some red ∧
         ∃ n, emitted st st' n urlMessage (js "error").
Proof.
  intros Hwf Hel Hv Hh Hw Hy.
  assert (test youtubePattern (value el) = false) as Ht.
  { destruct (test youtubePattern (value el)) eqn:Ht; [|done].
    apply youtubePattern_spec in Ht as (a & b & h & w & Ha & Hb & Hh' & _ & _ & Heq).
    rewrite Hv in Heq.
    apply schemes_cases in Ha as [-> | [-> | ->]];
      apply wwws_cases in Hb as [-> | ->];
      apply hosts_cases in Hh' as [-> | [-> | ->]];
      vm_compute in Heq; congruence. }
  split; [done|].
  destruct (blur_on_rejected st this el Hwf Hel) as (st' & ? & ? & ?); [|done|].
  - by rewrite Hv.
  - exists st'. eauto.
Qed.

Lemma X3_first_unit_witness :
  wf (formPage (32 :: js "https://youtube.com/watch?v=1") []) ∧
  test youtubePattern (32 :: js "https://youtube.com/watch?v=1") = false ∧
  ∃ st', onVideoUrlBlur 0%nat (formPage (32 :: js "https://youtube.com/watch?v=1") [])
         = Ok ((), st') ∧
         borderColor st' 0%nat = Some red ∧
         ∃ n, emitted (formPage (32 :: js "https://youtube.com/watch?v=1") []) st' n
                      urlMessage (js "error").
Proof.
  split; [apply wf_formPage|].
  apply (X3_first_unit (formPage (32 :: js "https://youtube.com/watch?v=1") []) 0%nat
           (inputField (32 :: js "https://youtube.com/watch?v=1")) 32
           (js "https://youtube.com/watch?v=1")).
  - apply wf_formPage.
  - vm_compute. reflexivity.
  - reflexivity.
  - discriminate.
  - discriminate.
  - discriminate.
Defined.

(** X4: what follows the slash is not looked at beyond line terminators:
    an accepted value stays accepted whatever is appended to it, as long as
    no line terminator is. *)
Theorem X4_rest_is_free (s w : jsstring) :
  test youtubePattern s = true →
  Forall (λ c, isLineTerminator c = false) w →
  test youtubePattern (s ++ w) = true.
Proof.
  rewrite !youtubePattern_spec.
  intros (a & b & h & p & Ha & Hb & Hh & Hp & HLT & ->) Hw.
  exists a, b, h, (p ++ w). repeat (split; [done|]).
  split; [by destruct p|]. split; [by apply Forall_app|].
  by rewrite <- !app_assoc.
Qed.

Lemma X4_rest_is_free_witness :
  test youtubePattern (js "youtu.be/a") = true ∧
  Forall (λ c, isLineTerminator c = false) (js " b <c>") ∧
  test youtubePattern (js "youtu.be/a" ++ js " b <c>") = true.
Proof.
  assert (test youtubePattern (js "youtu.be/a") = true) as H1 by (by vm_compute).
  assert (Forall (λ c, isLineTerminator c = false) (js " b <c>")) as H2
    by (vm_compute; repeat constructor).
  split; [done|]. split; [done|].
  exact (X4_rest_is_free (js "youtu.be/a") (js " b <c>") H1 H2).
Defined.

End PatternFacts.

(** ** What the listeners leave alone *)

Section ListenerFacts.

(** The assignment [this.style.borderColor = c], as a change of the node. *)
Lemma setBorder_eq this c st :
  setStyle this "border-color" c st =
  Ok ((), set_heap (alter (λ e, mkElement (tagName e) (className e) (textContent e)
             (value e) (<["border-color" := c]> (style e))) this) st).
Proof. done. Qed.

(** Each listener ends in one assignment of a border colour, followed for a
    rejected URL by one call of [showNotification]. *)
Lemma runListener_eq l st this el :
  heap st !! this = Some el →
  ∃ c, runListener l this st =
       (setStyle this "border-color" c;;
        (if match l with
            | VideoUrlBlur => truthy (value el) && negb (test youtubePattern (value el))
            | PasswordInput => false
            end
         then showNotification urlMessage (Some (js "error")) else ret ())) st.
Proof.
  intros Hel. destruct l; simpl.
  - destruct (decide (value el = [])) as [Hempty | Hne];
      [|destruct (test youtubePattern (value el)) eqn:Ht].
    + exists green. rewrite (onVideoUrlBlur_accepted st this el) by auto.
      by rewrite Hempty.
    + exists green. rewrite (onVideoUrlBlur_accepted st this el) by auto.
      by rewrite andb_false_r.
    + exists red. rewrite (onVideoUrlBlur_rejected st this el) by auto.
      by destruct (value el).
  - eexists. by rewrite (onPasswordInput_eq st this el Hel).
Qed.

(** X5: a run of either listener leaves the value, the class, the text
    and every inline declaration of its field outside the border
    properties as they are, changes no other existing node, no listener,
    no id and not the clock, and removes no child of the body and no
    pending timer. *)
Theorem X5_listener_frame (l : Listener) (st : Page) (this : handle) (el : Element) :
  wf st → heap st !! this = Some el →
  ∃ st' el', runListener l this st = Ok ((), st') ∧
    heap st' !! this = Some el' ∧
    tagName el' = tagName el ∧ className el' = className el ∧
    textContent el' = textContent el ∧ value el' = value el ∧
    (∀ p, String.prefix "border" p = false → style el' !! p = style el !! p) ∧
    (∀ h e, h ≠ this → heap st !! h = Some e → heap st' !! h = Some e) ∧
    listeners st' = listeners st ∧ byId st' = byId st ∧ now st' = now st ∧
    (∃ ns, body st' = body st ++ ns) ∧
    (∃ ts, timers st' = timers st ++ ts).
Proof.
  intros Hwf Hel. destruct (runListener_eq l st this el Hel) as [c ->].
  unfold bind. rewrite setBorder_eq.
  set (el' := mkElement (tagName el) (className el) (textContent el) (value el)
                        (<["border-color" := c]> (style el))).
  set (st1 := set_heap _ st).
  assert (heap st1 !! this = Some el') as Hel1
    by (subst st1; simpl; by rewrite lookup_alter_eq, Hel).
  assert (∀ h, h ≠ this → heap st1 !! h = heap st !! h) as Hother
    by (intros h Hne; subst st1; simpl; by rewrite lookup_alter_ne).
  assert (∀ p, String.prefix "border" p = false → style el' !! p = style el !! p)
    as Hstyle.
  { intros p Hp. subst el'. simpl. rewrite lookup_insert_ne; [done|].
    intros <-. vm_compute in Hp. discriminate Hp. }
  destruct (match l with
            | VideoUrlBlur => truthy (value el) && negb (test youtubePattern (value el))
            | PasswordInput => false
            end).
  - assert (wf st1) as Hwf1 by (subst st1; by apply wf_update).
    destruct (showNotification_emitted urlMessage (Some (js "error")) st1 Hwf1)
      as (st' & -> & (Hfresh & _ & _ & Hbody & Htimers) & Hnow & Hl & Hid & Hheap).
    assert (∀ h, is_Some (heap st1 !! h) → heap st' !! h = heap st1 !! h) as Hkeep.
    { intros h Hh. apply Hheap. by apply fresh_handle_ne. }
    exists st', el'. split; [done|].
    split; [by rewrite Hkeep|]. do 4 (split; [done|]). split; [done|].
    split; [intros h e Hne He; rewrite Hkeep, Hother; by rewrite ?Hother, ?He|].
    do 3 (split; [done|]). split; by eexists.
  - exists st1, el'. split; [done|]. split; [done|]. do 4 (split; [done|]).
    split; [done|]. split; [intros h e Hne He; by rewrite Hother|].
    do 3 (split; [done|]). split; exists []; by rewrite app_nil_r.
Qed.

Lemma X5_listener_frame_witness :
  wf (loadedPage [(0%nat, styledField (js "ftp://example.com")); (1%nat, inputField [])]
                 [("video_url", 0%nat); ("password", 1%nat)]) ∧
  ∃ st' el', runListener VideoUrlBlur 0%nat
               (loadedPage [(0%nat, styledField (js "ftp://example.com"));
                            (1%nat, inputField [])]
                           [("video_url", 0%nat); ("password", 1%nat)]) = Ok ((), st') ∧
    heap st' !! 0%nat = Some el' ∧
    tagName el' = tagName (styledField (js "ftp://example.com")) ∧
    className el' = className (styledField (js "ftp://example.com")) ∧
    textContent el' = textContent (styledField (js "ftp://example.com")) ∧
    value el' = value (styledField (js "ftp://example.com")) ∧
    (∀ p, String.prefix "border" p = false →
          style el' !! p = style (styledField (js "ftp://example.com")) !! p) ∧
    (∀ h e, h ≠ 0%nat →
            heap (loadedPage [(0%nat, styledField (js "ftp://example.com"));
                              (1%nat, inputField [])]
                             [("video_url", 0%nat); ("password", 1%nat)]) !! h = Some e →
            heap st' !! h = Some e) ∧
    listeners st' = [] ∧
    byId st' = byId (loadedPage [(0%nat, styledField (js "ftp://example.com"));
                                 (1%nat, inputField [])]
                                [("video_url", 0%nat); ("password", 1%nat)]) ∧
    now st' = 0 ∧
    (∃ ns, body st' = [0%nat; 1%nat] ++ ns) ∧
    (∃ ts, timers st' = [] ++ ts).
Proof.
  assert (wf (loadedPage [(0%nat, styledField (js "ftp://example.com"));
                          (1%nat, inputField [])]
                         [("video_url", 0%nat); ("password", 1%nat)])) as Hwf.
  { apply wf_loadedPage; simpl.
    - repeat constructor; set_solver.
    - intros x Hx. repeat (apply elem_of_cons in Hx as [-> | Hx]); simpl; [set_solver..|].
      by apply not_elem_of_nil in Hx. }
  split; [exact Hwf|].
  apply (X5_listener_frame VideoUrlBlur _ 0%nat (styledField (js "ftp://example.com")) Hwf).
  vm_compute. reflexivity.
Defined.

(** X6: a listener that emits nothing is idempotent on the whole page: run
    again on the page it left (the password listener on any value, the URL
    listener on an empty or matching value), it leaves that page exactly
    as it is. *)
Theorem X6_listener_idempotent (l : Listener) (st st1 : Page) (this : handle)
    (el : Element) :
  heap st !! this = Some el →
  l = PasswordInput ∨ value el = [] ∨ test youtubePattern (value el) = true →
  runListener l this st = Ok ((), st1) →
  runListener l this st1 = Ok ((), st1).
Proof.
  intros Hel Hquiet.
  assert (∃ c, (∀ st0 el0, heap st0 !! this = Some el0 → value el0 = value el →
                 runListener l this st0 = setStyle this "border-color" c st0)) as [c Hc].
  { destruct l.
    - exists green. intros st0 el0 Hel0 Hv. simpl.
      apply (onVideoUrlBlur_accepted st0 this el0 Hel0). rewrite Hv.
      destruct Hquiet as [? | ?]; [done | tauto].
    - eexists. intros st0 el0 Hel0 Hv. simpl.
      rewrite (onPasswordInput_eq st0 this el0 Hel0). by rewrite Hv. }
  rewrite (Hc st el Hel eq_refl), setBorder_eq. intros [= <-].
  erewrite Hc; [|simpl; by rewrite lookup_alter_eq, Hel|done].
  rewrite setBorder_eq. unfold set_heap. simpl. do 2 f_equal.
  f_equal. rewrite alter_alter_eq. apply alter_ext. intros e _. simpl.
  by rewrite insert_insert_eq.
Qed.

Lemma X6_listener_idempotent_witness :
  ∃ st1,
    runListener PasswordInput 1%nat (formPage [] (js "hunter2")) = Ok ((), st1) ∧
    runListener PasswordInput 1%nat st1 = Ok ((), st1).
Proof.
  destruct (runListener PasswordInput 1%nat (formPage [] (js "hunter2")))
    as [[[] st1] | e] eqn:Hrun.
  - exists st1. split; [reflexivity|].
    apply (X6_listener_idempotent PasswordInput (formPage [] (js "hunter2")) st1 1%nat
             (inputField (js "hunter2"))).
    + vm_compute. reflexivity.
    + left. reflexivity.
    + exact Hrun.
  - vm_compute in Hrun. discriminate Hrun.
Defined.

End ListenerFacts.

(** ** Runs of the whole script *)

Section Runs.

Lemma extends_refl st : extends st st.
Proof.
  exists []. simpl. rewrite !app_nil_r. repeat split; try done.
  intros n Hn. by apply not_elem_of_nil in Hn.
Qed.

Lemma extends_trans st1 st2 st3 :
  extends st1 st2 → extends st2 st3 → extends st1 st3.
Proof.
  intros (ns & Hb & Ht & Hn & Hf) (ns' & Hb' & Ht' & Hn' & Hf').
  exists (ns ++ ns'). rewrite Hb', Ht', Hb, Ht, Hn, map_app, <- !app_assoc.
  repeat split; try done; [congruence|].
  intros n [Hin | Hin]%elem_of_app; [by apply Hf|].
  intros Hbody. apply (Hf' n Hin). rewrite Hb. apply elem_of_app. by left.
Qed.

Lemma calm_ret st : wf st → calm (ret ()) st.
Proof.
  intros Hwf. exists st. split; [done|]. split; [done|].
  split; [apply grows_refl | apply extends_refl].
Qed.

Lemma calm_bind (c1 c2 : Js unit) st :
  calm c1 st →
  (∀ st', wf st' → grows st st' → calm c2 st') →
  calm (c1;; c2) st.
Proof.
  intros (st1 & H1 & Hwf1 & Hg1 & He1) H2.
  destruct (H2 st1 Hwf1 Hg1) as (st2 & H2' & Hwf2 & Hg2 & He2).
  exists st2. unfold bind. rewrite H1. split; [done|]. split; [done|].
  split; [by eapply grows_trans | by eapply extends_trans].
Qed.

Lemma calm_update h f st : wf st → calm (update h f) st.
Proof.
  intros Hwf. eexists. split; [done|]. split; [by apply wf_update|]. split.
  - repeat split; try done. simpl. intros k Hk. by apply lookup_alter_is_Some.
  - apply (extends_refl (set_heap (alter f h) st)).
Qed.

Lemma calm_showNotification message type_arg st :
  wf st → calm (showNotification message type_arg) st.
Proof.
  intros Hwf.
  destruct (steady_showNotification message type_arg st Hwf)
    as (st' & Hrun & Hwf' & Hg & _).
  exists st'. split; [done|]. split; [done|]. split; [done|].
  destruct (showNotification_emitted message type_arg st Hwf)
    as (st'' & Hrun' & (_ & _ & _ & Hb & Ht) & Hnow & _).
  rewrite Hrun in Hrun'. injection Hrun' as <-.
  exists [fresh_handle (heap st)]. split; [done|]. split; [done|]. split; [done|].
  intros n ->%list_elem_of_singleton. by apply wf_fresh_not_in_body.
Qed.

Lemma calm_runListener l this st :
  wf st → is_Some (heap st !! this) → calm (runListener l this) st.
Proof.
  intros Hwf [el Hel]. destruct l; simpl; unfold calm.
  - destruct (decide (value el = [])) as [Hempty | Hne];
      [|destruct (test youtubePattern (value el)) eqn:Ht].
    1,2: rewrite (onVideoUrlBlur_accepted st this el) by auto; by apply calm_update.
    rewrite (onVideoUrlBlur_rejected st this el) by auto.
    apply calm_bind; [by apply calm_update|].
    intros st' Hwf' Hg. by apply calm_showNotification.
  - rewrite (onPasswordInput_eq st this el Hel). by apply calm_update.
Qed.

Lemma calm_runListeners ls field type st :
  wf st →
  (∀ x, x ∈ ls → is_Some (heap st !! x.1.1)) →
  calm (runListeners ls field type) st.
Proof.
  revert st. induction ls as [|[[h ty] l] ls IH]; intros st Hwf Hlive; simpl.
  - by apply calm_ret.
  - apply calm_bind.
    + destruct (bool_decide (h = field) && bool_decide (ty = type)) eqn:Hb;
        [|by apply calm_ret].
      apply andb_true_iff in Hb as [->%bool_decide_eq_true _].
      apply calm_runListener; [done|]. apply (Hlive (field, ty, l)). left.
    + intros st' Hwf' Hg. apply IH; [done|].
      intros x Hx. eapply grows_live; [done|]. apply Hlive. by right.
Qed.

(** Every event but the passing of time at most adds notifications. *)
Lemma calm_runEvent ev st :
  wf st → (∀ dt, ev ≠ Elapse dt) → calm (runEvent ev) st.
Proof.
  intros Hwf Hev. destruct ev as [dt | field v | field | message type_arg]; simpl.
  - by destruct (Hev dt).
  - apply calm_bind; [by apply calm_update|].
    intros st' Hwf' Hg. unfold calm, dispatchEvent.
    apply calm_runListeners; [done|]. apply (wf_listeners_live _ Hwf').
  - unfold calm, dispatchEvent.
    apply calm_runListeners; [done|]. apply (wf_listeners_live _ Hwf).
  - by apply calm_showNotification.
Qed.

(** The DOMContentLoaded listener touches nothing but the listeners. *)
Lemma onDOMContentLoaded_frame st st' :
  onDOMContentLoaded st = Ok ((), st') →
  heap st' = heap st ∧ body st' = body st ∧ timers st' = timers st ∧
  now st' = now st ∧ byId st' = byId st.
Proof.
  unfold onDOMContentLoaded, bind, getElementById.
  destruct (byId st !! "video_url") as [v|] eqn:Hv;
    destruct (byId st !! "password") as [p|] eqn:Hp; simpl;
    rewrite ?Hp; simpl; by intros [= <-].
Qed.

(** X7: no run of the script throws.  On a page whose nodes are distinct,
    whose ids refer to them and whose elements video_url and password, when
    there, are input or textarea elements, the DOMContentLoaded listener
    followed by any sequence of events (time passing, edits and blurs of
    any node, calls of showNotification) completes: no listener finds a
    missing receiver, removeChild always finds its node, and every timer
    that is due gets run. *)
Theorem X7_script_never_throws (nodes : list (handle * Element))
    (ids : list (string * handle)) (evs : list Event) :
  NoDup (map fst nodes) →
  (∀ x, x ∈ ids → x.2 ∈ map fst nodes) →
  (∀ id h e, id = "video_url" ∨ id = "password" →
             (id, h) ∈ ids → (h, e) ∈ nodes → isField (tagName e) = true) →
  ∃ st', (onDOMContentLoaded;; runEvents evs) (loadedPage nodes ids) = Ok ((), st') ∧
         wf st' ∧ now st' = elapsed evs.
Proof.
  intros Hnd Hids _.
  destruct (wf_onDOMContentLoaded _ (wf_loadedPage nodes ids Hnd Hids))
    as (st1 & Hrun1 & Hwf1).
  destruct (runEvents_steps evs st1 Hwf1) as (st2 & Hrun2 & Hwf2 & Hnow & _).
  exists st2. unfold bind. rewrite Hrun1. split; [done|]. split; [done|].
  rewrite Hnow.
  destruct (onDOMContentLoaded_frame _ _ Hrun1) as (_ & _ & _ & -> & _). simpl. lia.
Qed.

Lemma X7_script_never_throws_witness :
  NoDup (map fst [(0%nat, inputField []); (1%nat, inputField [])]) ∧
  ∃ st', (onDOMContentLoaded;;
          runEvents [UserInput 1%nat (js "hunter2"); UserInput 0%nat (js "x");
                     UserBlur 0%nat; Elapse 5000])
           (loadedPage [(0%nat, inputField []); (1%nat, inputField [])]
                       [("video_url", 0%nat); ("password", 1%nat)]) = Ok ((), st') ∧
         wf st' ∧
         now st' = elapsed [UserInput 1%nat (js "hunter2"); UserInput 0%nat (js "x");
                            UserBlur 0%nat; Elapse 5000].
Proof.
  assert (NoDup (map fst [(0%nat, inputField []); (1%nat, inputField [])])) as Hnd
    by (simpl; repeat constructor; set_solver).
  split; [exact Hnd|].
  apply (X7_script_never_throws [(0%nat, inputField []); (1%nat, inputField [])]
           [("video_url", 0%nat); ("password", 1%nat)]
           [UserInput 1%nat (js "hunter2"); UserInput 0%nat (js "x");
            UserBlur 0%nat; Elapse 5000] Hnd).
  - intros x Hx. apply list_elem_of_In in Hx. apply list_elem_of_In.
    simpl in *. destruct Hx as [<- | [<- | []]]; simpl; tauto.
  - intros id h e _ _ He. apply list_elem_of_In in He. simpl in He.
    destruct He as [[= <- <-] | [[= <- <-] | []]]; reflexivity.
Defined.

(** X8: notifications are neither merged, replaced nor limited: any
    number of calls of showNotification in a row leaves one node per call
    among the children of the body, after the children that were there and
    in the order of the calls, each with the message and type of its call
    and a timer of its own. *)
Theorem X8_notifications_stack (st : Page)
    (calls : list (jsstring * option jsstring)) :
  wf st →
  ∃ st' ns, runEvents (callEvents calls) st = Ok ((), st') ∧
    body st' = body st ++ ns ∧ NoDup (body st') ∧
    timers st' = timers st ++ map (λ n, (now st + 3000, SlideOut n)) ns ∧
    map (λ n, heap st' !! n) ns =
      map (λ c, Some (notificationNode c.1 (default (js "info") c.2))) calls ∧
    (∀ h e, heap st !! h = Some e → heap st' !! h = Some e).
Proof.
  revert st. induction calls as [|[message type_arg] calls IH]; intros st Hwf; simpl.
  - exists st, []. simpl. rewrite !app_nil_r. split; [done|]. split; [done|].
    split; [apply (wf_body_nodup _ Hwf)|]. done.
  - destruct (showNotification_emitted message type_arg st Hwf)
      as (st1 & Hrun & (Hfresh & _ & Hnode & Hb & Ht) & Hnow & _ & _ & Hkeep).
    assert (wf st1) as Hwf1 by (by eapply wf_showNotification).
    destruct (IH st1 Hwf1) as (st' & ns & Hrun' & Hb' & Hnd & Ht' & Hnodes & Hkeep').
    exists st', (fresh_handle (heap st) :: ns). unfold bind. rewrite Hrun.
    split; [done|]. split; [by rewrite Hb', Hb, <- app_assoc|]. split; [done|].
    split; [by rewrite Ht', Ht, Hnow, <- app_assoc|]. split.
    + simpl. rewrite Hnodes. f_equal. by apply Hkeep'.
    + intros h e He. apply Hkeep'. rewrite Hkeep; [done|].
      apply fresh_handle_ne. by eexists.
Qed.

Lemma X8_notifications_stack_witness :
  wf (formPage [] []) ∧
  ∃ st' ns,
    runEvents (callEvents [(js "a", None); (js "a", None); (js "b", Some (js "error"))])
              (formPage [] []) = Ok ((), st') ∧
    body st' = body (formPage [] []) ++ ns ∧ NoDup (body st') ∧
    timers st' = timers (formPage [] [])
                 ++ map (λ n, (now (formPage [] []) + 3000, SlideOut n)) ns ∧
    map (λ n, heap st' !! n) ns =
      map (λ c, Some (notificationNode c.1 (default (js "info") c.2)))
          [(js "a", None); (js "a", None); (js "b", Some (js "error"))] ∧
    (∀ h e, heap (formPage [] []) !! h = Some e → heap st' !! h = Some e).
Proof.
  split; [apply wf_formPage|].
  apply (X8_notifications_stack (formPage [] [])
           [(js "a", None); (js "a", None); (js "b", Some (js "error"))]).
  apply wf_formPage.
Defined.

(** *** Draining the timers *)

(** Running the due timers keeps whatever every callback keeps; the last
    step sets the clock. *)
Lemma run_timers_inv (P : Page → Prop) t :
  (∀ st due cb others st',
     wf st → P st → extract_min (timers st) = Some ((due, cb), others) → due ≤ t →
     runCallback cb (set_now (N.max (now st) due) (set_timers (λ _, others) st))
       = Ok ((), st') →
     P st') →
  ∀ fuel st, wf st → P st → (timers_weight (timers st) ≤ fuel)%nat →
  ∃ st0, run_timers fuel t st = Ok ((), set_now (N.max (now st0) t) st0) ∧
         wf st0 ∧ P st0 ∧ (∀ x, x ∈ timers st0 → t < x.1) ∧ now st ≤ now st0.
Proof.
  intros Hstep. induction fuel as [|fuel IH]; intros st Hwf HP Hfuel.
  all: simpl; destruct (extract_min (timers st)) as [[[due cb] others]|] eqn:Hmin.
  all: try (exists st; split; [done|]; split; [done|]; split; [done|]; split; [|lia];
            apply extract_min_None in Hmin; rewrite Hmin;
            intros x Hx; by apply not_elem_of_nil in Hx).
  all: pose proof (extract_min_least _ _ _ Hmin) as Hleast; simpl in Hleast.
  all: destruct (N.leb_spec due t) as [Hdue | Hdue].
  all: try (exists st; split; [done|]; split; [done|]; split; [done|]; split; [|lia];
            intros x Hx; specialize (Hleast x Hx); lia).
  - pose proof (extract_min_perm _ _ _ Hmin) as Hperm.
    rewrite (timers_weight_perm _ _ Hperm) in Hfuel.
    unfold timers_weight in Hfuel. simpl in Hfuel. destruct cb; simpl in Hfuel; lia.
  - destruct (runCallback_step st due cb others Hwf Hmin)
      as (st1 & Hrun & Hwf1 & Hnow1 & Hweight & _).
    unfold bind. rewrite Hrun.
    destruct (IH st1 Hwf1) as (st0 & Hrun0 & Hwf0 & HP0 & Hpend & Hnow0);
      [exact (Hstep st due cb others st1 Hwf HP Hmin Hdue Hrun) | lia |].
    exists st0. do 4 (split; [done|]). lia.
Qed.

(** What the two callbacks do to the body and the timers. *)
Lemma runCallback_effect st due cb others st' :
  wf st → extract_min (timers st) = Some ((due, cb), others) →
  runCallback cb (set_now (N.max (now st) due) (set_timers (λ _, others) st))
    = Ok ((), st') →
  now st' = N.max (now st) due ∧
  (∀ x, x ∈ timers st ↔ x = (due, cb) ∨ x ∈ others) ∧
  (∀ x, x ∈ others → target x.2 ≠ target cb) ∧
  (∀ x, x ∈ timers st → due ≤ x.1) ∧
  if isRemove cb
  then body st' = filter (λ c, c ≠ target cb) (body st) ∧ timers st' = others
  else body st' = body st ∧
       timers st' = others ++ [(N.max (now st) due + 300, Remove (target cb))].
Proof.
  intros Hwf Hmin Hrun.
  pose proof (extract_min_perm _ _ _ Hmin) as Hperm.
  split; [|split; [|split; [|split]]].
  - destruct cb; simpl in Hrun.
    + by injection Hrun as <-.
    + unfold removeChild in Hrun. case_bool_decide; [|done]. by injection Hrun as <-.
  - intros x. rewrite Hperm. apply elem_of_cons.
  - pose proof (wf_timers_nodup _ Hwf) as Hnd. rewrite Hperm in Hnd. simpl in Hnd.
    apply NoDup_cons in Hnd as [Hfresh _]. intros x Hx Heq. apply Hfresh.
    rewrite <- Heq. apply list_elem_of_fmap. by exists x.
  - intros x Hx. by apply (extract_min_least _ _ _ Hmin).
  - destruct cb; simpl in *.
    + by injection Hrun as <-.
    + unfold removeChild in Hrun. case_bool_decide; [|done]. by injection Hrun as <-.
Qed.

Lemma filter_all (P : handle → Prop) `{∀ h, Decision (P h)} (l : list handle) :
  (∀ h, h ∈ l → P h) → filter P l = l.
Proof.
  induction l as [|a l IH]; [done|]. intros Hall.
  rewrite filter_cons_True by (apply Hall; left).
  rewrite IH; [done|]. intros h Hh. apply Hall. by right.
Qed.

Lemma based_callback base st due cb others st' :
  wf st → based base st →
  extract_min (timers st) = Some ((due, cb), others) →
  runCallback cb (set_now (N.max (now st) due) (set_timers (λ _, others) st))
    = Ok ((), st') →
  based base st'.
Proof.
  intros Hwf (Hf & Hb & Ht) Hmin Hrun.
  destruct (runCallback_effect _ _ _ _ _ Hwf Hmin Hrun)
    as (_ & Hmem & Hdiff & _ & Heff).
  assert (target cb ∉ base) as Hcb by (apply (Ht (due, cb)), Hmem; by left).
  destruct cb as [m | m]; simpl in *; destruct Heff as [Hbody Htimers];
    unfold based; rewrite Hbody, Htimers.
  - split; [done|]. split.
    + intros h Hh. destruct (Hb h Hh) as [? | Hin]; [by left|]. right.
      apply list_elem_of_fmap in Hin as (x & -> & [-> | Hx]%Hmem).
      * rewrite map_app. set_solver.
      * rewrite map_app. apply elem_of_app. left. apply list_elem_of_fmap. by exists x.
    + intros x [Hx | ->%list_elem_of_singleton]%elem_of_app; [|done].
      apply Ht, Hmem. by right.
  - split; [|split].
    + rewrite list_filter_filter. etrans; [|exact Hf]. apply list_filter_iff.
      intros h. split; [tauto|]. intros Hh. split; [done|]. by intros ->.
    + intros h [Hne Hh]%list_elem_of_filter.
      destruct (Hb h Hh) as [? | Hin]; [by left|]. right.
      apply list_elem_of_fmap in Hin as (x & -> & [-> | Hx]%Hmem); [done|].
      apply list_elem_of_fmap. by exists x.
    + intros x Hx. apply Ht, Hmem. by right.
Qed.

Lemma timely_callback st due cb others st' :
  wf st → timely st →
  extract_min (timers st) = Some ((due, cb), others) →
  runCallback cb (set_now (N.max (now st) due) (set_timers (λ _, others) st))
    = Ok ((), st') →
  timely st'.
Proof.
  intros Hwf Htimely Hmin Hrun.
  destruct (runCallback_effect _ _ _ _ _ Hwf Hmin Hrun)
    as (Hnow & Hmem & _ & _ & Heff).
  assert (∀ x, x ∈ others →
            x.1 ≤ now st' + match x.2 with SlideOut _ => 3000 | Remove _ => 300 end)
    as Hothers.
  { intros x Hx. assert (x ∈ timers st) as Hin by (apply Hmem; by right).
    specialize (Htimely x Hin). rewrite Hnow. destruct x.2; lia. }
  unfold timely. intros x. destruct cb; simpl in Heff; destruct Heff as [_ ->].
  - intros [Hx | ->%list_elem_of_singleton]%elem_of_app; [by apply Hothers|].
    simpl. lia.
  - apply Hothers.
Qed.

Lemma all_or_some_slideOut (l : list (N * Callback)) :
  (∀ x, x ∈ l → isRemove x.2 = true) ∨ (∃ x, x ∈ l ∧ isRemove x.2 = false).
Proof.
  induction l as [|a l [IH | (x & Hx & Hs)]].
  - left. intros x Hx. by apply not_elem_of_nil in Hx.
  - destruct (isRemove a.2) eqn:Ha.
    + left. intros x [-> | Hx]%elem_of_cons; auto.
    + right. exists a. split; [left | done].
  - right. exists x. split; [by right | done].
Qed.

Lemma draining_callback t0 st due cb others st' :
  wf st → draining t0 st →
  extract_min (timers st) = Some ((due, cb), others) →
  runCallback cb (set_now (N.max (now st) due) (set_timers (λ _, others) st))
    = Ok ((), st') →
  draining t0 st'.
Proof.
  intros Hwf [Hdue Hclock] Hmin Hrun.
  destruct (runCallback_effect _ _ _ _ _ Hwf Hmin Hrun)
    as (Hnow & Hmem & _ & Hleast & Heff).
  assert ((due, cb) ∈ timers st) as Hin by (apply Hmem; by left).
  assert (∀ x, x ∈ others → x.1 ≤ t0 + if isRemove x.2 then 3300 else 3000) as Hothers
    by (intros x Hx; apply Hdue, Hmem; by right).
  destruct cb as [m | m]; simpl in Heff; destruct Heff as [_ Htimers];
    unfold draining; rewrite Htimers, Hnow.
  - (* the slide-out: the clock has not passed t0 + 3000 *)
    assert (now st ≤ t0 + 3000) as Hle.
    { destruct Hclock as [? | Hall]; [done|]. by specialize (Hall _ Hin). }
    pose proof (Hdue _ Hin) as Hd. simpl in Hd.
    split; [|left; lia].
    intros x [Hx | ->%list_elem_of_singleton]%elem_of_app; [by apply Hothers|].
    simpl. lia.
  - split; [done|].
    destruct (all_or_some_slideOut others) as [Hall | (x & Hx & Hs)]; [by right|].
    left. assert (x ∈ timers st) as Hxin by (apply Hmem; by right).
    destruct Hclock as [Hle | Hall]; [|specialize (Hall _ Hxin); congruence].
    pose proof (Hdue _ Hxin) as Hd. rewrite Hs in Hd.
    specialize (Hleast _ Hxin). lia.
Qed.

(** Once 3300 ms pass with nothing else happening, no timer is pending and
    the children of the body are those of [base]. *)
Lemma elapse_drains base dt st :
  wf st → timely st → based base st → 3300 ≤ dt →
  ∃ st', elapse dt st = Ok ((), st') ∧ wf st' ∧
         timers st' = [] ∧ body st' = base ∧ now st' = now st + dt.
Proof.
  intros Hwf Htimely Hbased Hdt. unfold elapse.
  destruct (run_timers_inv (λ s, based base s ∧ draining (now st) s) (now st + dt))
    with (fuel := timers_weight (timers st)) (st := st)
    as (st0 & Hrun & Hwf0 & [(Hf & Hb & _) [Hdue _]] & Hpend & Hnow); try done.
  - intros s due cb others s' Hwfs [? ?] Hmin _ Hruns.
    split; [by eapply based_callback | by eapply draining_callback].
  - split; [done|]. split; [|left; lia].
    intros x Hx. specialize (Htimely x Hx). destruct x.2; simpl; lia.
  - assert (timers st0 = []) as Hnil.
    { destruct (timers st0) as [|x l]; [done|].
      assert (x ∈ x :: l) as Hx by left.
      specialize (Hdue x Hx). specialize (Hpend x Hx). destruct (isRemove x.2); lia. }
    eexists. split; [done|]. split; [by apply wf_set_now|]. simpl.
    split; [done|]. split.
    + rewrite <- Hf. symmetry. apply filter_all. intros h Hh.
      destruct (Hb h Hh) as [? | Hin]; [done|].
      rewrite Hnil in Hin. by apply not_elem_of_nil in Hin.
    + assert (∀ x, x ∈ timers st → x.1 ≤ now st + 3000).
      { intros x Hx. specialize (Htimely x Hx). destruct x.2; lia. }
      (* every timer that ran was due by then, so the clock ends at the target *)
      destruct (run_timers_ok (timers_weight (timers st)) (now st + dt) st)
        as (st'' & Hrun'' & _ & Hnow'' & _); [done | lia | lia |].
      rewrite Hrun in Hrun''. injection Hrun'' as <-. done.
Qed.

Lemma timely_extends st st' : timely st → extends st st' → timely st'.
Proof.
  intros Htimely (ns & _ & Ht & Hnow & _) x. rewrite Ht, Hnow.
  intros [Hx | Hx]%elem_of_app; [by apply Htimely|].
  apply list_elem_of_fmap in Hx as (n & -> & _). simpl. lia.
Qed.

Lemma based_extends base st st' : based base st → extends st st' → based base st'.
Proof.
  intros (Hf & Hb & Ht) (ns & Hbody & Htimers & _ & Hfresh).
  assert (∀ h, h ∈ base → h ∈ body st) as Hbase.
  { intros h Hh. rewrite <- Hf in Hh. by apply list_elem_of_filter in Hh as [_ ?]. }
  assert (map (λ x : N * Callback, target x.2)
              (map (λ n, (now st + 3000, SlideOut n)) ns) = ns) as Htargets.
  { rewrite map_map. simpl. apply map_id. }
  assert (filter (λ h, h ∈ base) ns = []) as Hnone.
  { clear Hbody Htimers Htargets. induction ns as [|n ns IH]; [done|].
    rewrite filter_cons_False.
    - apply IH. intros k Hk. apply Hfresh. by right.
    - intros Hn%Hbase. apply (Hfresh n); [left | done]. }
  unfold based; rewrite Hbody, Htimers. split; [|split].
  - by rewrite filter_app, Hf, Hnone, app_nil_r.
  - intros h [Hh | Hh]%elem_of_app.
    + destruct (Hb h Hh) as [? | ?]; [by left|]. right.
      rewrite map_app. apply elem_of_app. by left.
    + right. rewrite map_app, Htargets. apply elem_of_app. by right.
  - intros x [Hx | Hx]%elem_of_app; [by apply Ht|].
    apply list_elem_of_fmap in Hx as (n & -> & Hn). simpl.
    intros Hin%Hbase. by apply (Hfresh n).
Qed.

Lemma runEvent_keeps base ev st :
  wf st → timely st → based base st →
  ∃ st', runEvent ev st = Ok ((), st') ∧ wf st' ∧ timely st' ∧ based base st'.
Proof.
  intros Hwf Htimely Hbased.
  assert (∀ ev', (∀ dt, ev' ≠ Elapse dt) →
            ∃ st', runEvent ev' st = Ok ((), st') ∧ wf st' ∧ timely st' ∧ based base st')
    as Hcalm.
  { intros ev' Hne.
    destruct (calm_runEvent ev' st Hwf Hne) as (st' & Hrun & Hwf' & _ & Hext).
    exists st'. split; [done|]. split; [done|].
    split; [by eapply timely_extends | by eapply based_extends]. }
  destruct ev as [dt | field v | field | message type_arg]; [|by apply Hcalm..].
  - simpl. unfold elapse.
    destruct (run_timers_inv (λ s, timely s ∧ based base s) (now st + dt))
      with (fuel := timers_weight (timers st)) (st := st)
      as (st0 & Hrun & Hwf0 & [Ht0 Hb0] & _ & _); try done.
    + intros s due cb others s' Hwfs [? ?] Hmin _ Hruns.
      split; [by eapply timely_callback | by eapply based_callback].
    + eexists. split; [done|]. split; [by apply wf_set_now|]. split; [|done].
      intros x Hx. specialize (Ht0 x Hx). simpl. destruct x.2; lia.
Qed.

Lemma runEvents_keep base evs st :
  wf st → timely st → based base st →
  ∃ st', runEvents evs st = Ok ((), st') ∧ wf st' ∧ timely st' ∧ based base st'.
Proof.
  revert st. induction evs as [|ev evs IH]; intros st Hwf Htimely Hbased; simpl.
  - by exists st.
  - destruct (runEvent_keeps base ev st Hwf Htimely Hbased)
      as (st1 & Hrun & Hwf1 & Ht1 & Hb1).
    destruct (IH st1 Hwf1 Ht1 Hb1) as (st2 & Hrun2 & ?).
    exists st2. unfold bind. by rewrite Hrun.
Qed.

Lemma runEvents_app evs1 evs2 st :
  runEvents (evs1 ++ evs2) st = (runEvents evs1;; runEvents evs2) st.
Proof.
  revert st. induction evs1 as [|ev evs1 IH]; intros st; simpl; [done|].
  unfold bind in *. destruct (runEvent ev st) as [[[] st1]|]; [apply IH | done].
Qed.

(** X9: no notification leaks.  Whatever happened on the page since the
    listeners were bound, once 3300 ms or more pass without a further
    event, every notification is gone: no timer is pending and the
    children of the body are again those of the loaded page, in their
    order. *)
Theorem X9_no_leak (nodes : list (handle * Element)) (ids : list (string * handle))
    (evs : list Event) (dt : N) :
  NoDup (map fst nodes) →
  (∀ x, x ∈ ids → x.2 ∈ map fst nodes) →
  3300 ≤ dt →
  ∃ st', (onDOMContentLoaded;; runEvents (evs ++ [Elapse dt])) (loadedPage nodes ids)
         = Ok ((), st') ∧
         timers st' = [] ∧ body st' = map fst nodes.
Proof.
  intros Hnd Hids Hdt.
  destruct (wf_onDOMContentLoaded _ (wf_loadedPage nodes ids Hnd Hids))
    as (st1 & Hrun1 & Hwf1).
  destruct (onDOMContentLoaded_frame _ _ Hrun1) as (_ & Hb1 & Ht1 & _ & _).
  simpl in Hb1, Ht1.
  assert (timely st1) as Htimely.
  { intros x Hx. rewrite Ht1 in Hx. by apply not_elem_of_nil in Hx. }
  assert (based (map fst nodes) st1) as Hbased.
  { unfold based. rewrite Hb1, Ht1. split; [by apply filter_all|]. split; [by left|].
    intros x Hx. by apply not_elem_of_nil in Hx. }
  destruct (runEvents_keep _ evs st1 Hwf1 Htimely Hbased)
    as (st2 & Hrun2 & Hwf2 & Ht2 & Hb2).
  destruct (elapse_drains _ dt st2 Hwf2 Ht2 Hb2 Hdt) as (st3 & Hrun3 & _ & ? & ? & _).
  exists st3. unfold bind. rewrite Hrun1, runEvents_app. unfold bind.
  rewrite Hrun2. simpl. unfold bind. by rewrite Hrun3.
Qed.

Lemma X9_no_leak_witness :
  NoDup (map fst [(0%nat, inputField []); (1%nat, inputField [])]) ∧
  3300 ≤ 3300 ∧
  ∃ st', (onDOMContentLoaded;;
          runEvents ([CallShowNotification (js "a") None; Elapse 2999;
                      UserInput 0%nat (js "x"); UserBlur 0%nat; Elapse 1]
                     ++ [Elapse 3300]))
           (loadedPage [(0%nat, inputField []); (1%nat, inputField [])]
                       [("video_url", 0%nat); ("password", 1%nat)]) = Ok ((), st') ∧
         timers st' = [] ∧
         body st' = map fst [(0%nat, inputField []); (1%nat, inputField [])].
Proof.
  assert (NoDup (map fst [(0%nat, inputField []); (1%nat, inputField [])])) as Hnd
    by (simpl; repeat constructor; set_solver).
  assert (3300 ≤ 3300) as Hdt by lia.
  split; [exact Hnd|]. split; [exact Hdt|].
  apply (X9_no_leak [(0%nat, inputField []); (1%nat, inputField [])]
           [("video_url", 0%nat); ("password", 1%nat)]
           [CallShowNotification (js "a") None; Elapse 2999;
            UserInput 0%nat (js "x"); UserBlur 0%nat; Elapse 1] 3300 Hnd); [|exact Hdt].
  intros x Hx. apply list_elem_of_In in Hx. apply list_elem_of_In.
  simpl in *. destruct Hx as [<- | [<- | []]]; simpl; tauto.
Defined.

End Runs.

(** ** Loading the script *)

Section Loading.

Lemma onDOMContentLoaded_eq st :
  onDOMContentLoaded st =
  Ok ((), set_listeners (λ ls, ls ++ blurListenerFor (byId st !! "video_url")
                                  ++ inputListenerFor (byId st !! "password")) st).
Proof.
  destruct st as [hp ids bd ls ts nw].
  unfold onDOMContentLoaded, bind, getElementById. simpl.
  destruct (ids !! "video_url") as [v|] eqn:Hv;
    destruct (ids !! "password") as [p|] eqn:Hp; simpl;
    rewrite ?Hp; unfold ret; repeat (unfold set_listeners; simpl);
    by rewrite <- ?app_assoc, ?app_nil_r.
Qed.

(** The page after the top level has run: one node more, nothing else. *)
Lemma main_eq d :
  main d =
  Ok ((), mkDocument
            (set_heap (insert (fresh_handle (heap (page d)))
                              (mkElement "style" [] styleText [] ∅)) (page d))
            (filter (λ c, c ≠ fresh_handle (heap (page d))) (head d)
               ++ [fresh_handle (heap (page d))])
            (documentListeners d ++ [("DOMContentLoaded", DOMContentLoadedListener)])
            true).
Proof.
  unfold main, bindD, addDocumentListener, onPage, createElement, setTextContent,
    update, headAppendChild, exportShowNotification, set_heap. simpl.
  by rewrite alter_insert_eq.
Qed.

Lemma wf_main d d' : wf (page d) → main d = Ok ((), d') → wf (page d').
Proof.
  intros [H1 H2 H3 H4 H5 H6]. rewrite main_eq. intros [= <-]. simpl.
  assert (∀ k, is_Some (heap (page d) !! k) →
               is_Some (<[fresh_handle (heap (page d)) :=
                            mkElement "style" [] styleText [] ∅]> (heap (page d)) !! k))
    as Hlive.
  { intros k Hk. rewrite lookup_insert_ne; [done|]. intros <-.
    rewrite fresh_handle_fresh in Hk. by destruct Hk. }
  split; simpl; eauto.
Qed.

(** X10: loading the script into a parsed document and then dispatching
    DOMContentLoaded never throws.  The load adds one style node with the
    keyframes text as last child of the head and exports showNotification;
    the fields get their listeners from the event, one blur listener if
    video_url is there and one input listener if password is; the body,
    the timers and the nodes that were there are untouched. *)
Theorem X10_load_then_ready (p : Page) (hd : list handle) :
  wf p → (∀ h, h ∈ hd → is_Some (heap p !! h)) →
  ∃ d', (main;; dispatchDocumentEvent "DOMContentLoaded")%doc (parsedDocument p hd)
        = Ok ((), d') ∧
    head d' = hd ++ [fresh_handle (heap p)] ∧
    heap p !! fresh_handle (heap p) = None ∧
    heap (page d') =
      <[fresh_handle (heap p) := mkElement "style" [] styleText [] ∅]> (heap p) ∧
    listeners (page d') =
      listeners p ++ blurListenerFor (byId p !! "video_url")
                  ++ inputListenerFor (byId p !! "password") ∧
    body (page d') = body p ∧ timers (page d') = timers p ∧
    byId (page d') = byId p ∧ now (page d') = now p ∧
    windowShowNotification d' = true ∧ wf (page d').
Proof.
  intros Hwf Hhd.
  assert (fresh_handle (heap p) ∉ hd) as Hfresh.
  { intros Hin%Hhd. rewrite fresh_handle_fresh in Hin. by destruct Hin. }
  destruct (main (parsedDocument p hd)) as [[[] d1]|] eqn:Hmain;
    [|by rewrite main_eq in Hmain].
  pose proof (wf_main (parsedDocument p hd) d1 Hwf Hmain) as Hwf1.
  rewrite main_eq in Hmain. injection Hmain as <-.
  unfold bindD. rewrite main_eq. unfold dispatchDocumentEvent. simpl.
  unfold bindD, onPage. simpl. rewrite onDOMContentLoaded_eq. simpl.
  eexists. split; [done|]. simpl.
  split; [by rewrite filter_ne_id|]. split; [apply fresh_handle_fresh|].
  do 7 (split; [done|]).
  simpl in Hwf1.
  destruct (wf_onDOMContentLoaded _ Hwf1) as (st' & Hrun & Hwf').
  rewrite onDOMContentLoaded_eq in Hrun. injection Hrun as <-. exact Hwf'.
Qed.

Lemma X10_load_then_ready_witness :
  wf (formPage [] []) ∧
  ∃ d', (main;; dispatchDocumentEvent "DOMContentLoaded")%doc
          (parsedDocument (formPage [] []) []) = Ok ((), d') ∧
    head d' = [] ++ [fresh_handle (heap (formPage [] []))] ∧
    heap (formPage [] []) !! fresh_handle (heap (formPage [] [])) = None ∧
    heap (page d') =
      <[fresh_handle (heap (formPage [] [])) := mkElement "style" [] styleText [] ∅]>
        (heap (formPage [] [])) ∧
    listeners (page d') =
      listeners (formPage [] [])
        ++ blurListenerFor (byId (formPage [] []) !! "video_url")
        ++ inputListenerFor (byId (formPage [] []) !! "password") ∧
    body (page d') = body (formPage [] []) ∧ timers (page d') = timers (formPage [] []) ∧
    byId (page d') = byId (formPage [] []) ∧ now (page d') = now (formPage [] []) ∧
    windowShowNotification d' = true ∧ wf (page d').
Proof.
  split; [apply wf_formPage|].
  apply (X10_load_then_ready (formPage [] []) []).
  - apply wf_formPage.
  - intros h Hh. by apply not_elem_of_nil in Hh.
Defined.

(** With no listener and no timer, nothing but a call of showNotification
    changes a style or the children of the body. *)
Lemma idle_runEvents evs st :
  listeners st = [] → timers st = [] →
  forallb (λ ev, negb (isCall ev)) evs = true →
  ∃ st', runEvents evs st = Ok ((), st') ∧
    listeners st' = [] ∧ timers st' = [] ∧ body st' = body st ∧
    ∀ h, style <$> heap st' !! h = style <$> heap st !! h.
Proof.
  revert st. induction evs as [|ev evs IH]; intros st Hl Ht Hevs; simpl in *.
  - by exists st.
  - apply andb_true_iff in Hevs as [Hev Hevs].
    assert (∃ st1, runEvent ev st = Ok ((), st1) ∧
              listeners st1 = [] ∧ timers st1 = [] ∧ body st1 = body st ∧
              ∀ h, style <$> heap st1 !! h = style <$> heap st !! h)
      as (st1 & Hrun & Hl1 & Ht1 & Hb1 & Hs1).
    { destruct ev as [dt | field v | field | message type_arg]; simpl in *; [| | |done].
      - unfold elapse. rewrite Ht. simpl. rewrite Ht. simpl. by eexists.
      - unfold bind, setValue, update, dispatchEvent. simpl. rewrite Hl. simpl.
        eexists. split; [done|]. simpl. do 3 (split; [done|]).
        intros h. rewrite lookup_alter. case_decide; [|done].
        subst h. by destruct (heap st !! field).
      - unfold dispatchEvent. rewrite Hl. simpl. by exists st. }
    destruct (IH st1 Hl1 Ht1 Hevs) as (st2 & Hrun2 & Hl2 & Ht2 & Hb2 & Hs2).
    exists st2. unfold bind. rewrite Hrun. split; [done|]. do 2 (split; [done|]).
    split; [congruence|]. intros h. by rewrite Hs2, Hs1.
Qed.

(** X11: the listeners of the fields are bound by the DOMContentLoaded
    event only.  When the event has been dispatched before the script is
    loaded, the load still adds the style node and exports
    showNotification, but no field gets a listener, and from then on no
    edit, blur or passing of time marks a field or shows a notification:
    every inline style and the children of the body stay as they are. *)
Theorem X11_late_load_binds_nothing (p : Page) (hd : list handle) (evs : list Event) :
  listeners p = [] → timers p = [] →
  forallb (λ ev, negb (isCall ev)) evs = true →
  ∃ d' st', (dispatchDocumentEvent "DOMContentLoaded";; main)%doc (parsedDocument p hd)
            = Ok ((), d') ∧
    documentListeners d' = [("DOMContentLoaded", DOMContentLoadedListener)] ∧
    windowShowNotification d' = true ∧
    listeners (page d') = [] ∧
    runEvents evs (page d') = Ok ((), st') ∧
    body st' = body p ∧ timers st' = [] ∧
    ∀ h, is_Some (heap p !! h) → style <$> heap st' !! h = style <$> heap p !! h.
Proof.
  intros Hl Ht Hevs.
  unfold bindD, dispatchDocumentEvent. simpl. rewrite main_eq. simpl.
  set (p1 := set_heap _ p).
  destruct (idle_runEvents evs p1 Hl Ht Hevs) as (st' & Hrun & _ & Ht' & Hb' & Hs').
  eexists _, st'. split; [done|]. simpl. do 3 (split; [done|]).
  split; [done|]. split; [done|]. split; [done|].
  intros h Hh. rewrite Hs'. subst p1. simpl.
  rewrite lookup_insert_ne; [done|]. intros <-.
  rewrite fresh_handle_fresh in Hh. by destruct Hh.
Qed.

Lemma X11_late_load_binds_nothing_witness :
  listeners (formPage [] []) = [] ∧ timers (formPage [] []) = [] ∧
  ∃ d' st', (dispatchDocumentEvent "DOMContentLoaded";; main)%doc
              (parsedDocument (formPage [] []) []) = Ok ((), d') ∧
    documentListeners d' = [("DOMContentLoaded", DOMContentLoadedListener)] ∧
    windowShowNotification d' = true ∧
    listeners (page d') = [] ∧
    runEvents [UserInput 0%nat (js "ftp://example.com"); UserBlur 0%nat; Elapse 4000]
              (page d') = Ok ((), st') ∧
    body st' = body (formPage [] []) ∧ timers st' = [] ∧
    ∀ h, is_Some (heap (formPage [] []) !! h) →
         style <$> heap st' !! h = style <$> heap (formPage [] []) !! h.
Proof.
  split; [reflexivity|]. split; [reflexivity|].
  apply (X11_late_load_binds_nothing (formPage [] []) []
           [UserInput 0%nat (js "ftp://example.com"); UserBlur 0%nat; Elapse 4000]).
  - reflexivity.
  - reflexivity.
  - reflexivity.
Defined.

End Loading.

(** ** Notifications leave in the order they came *)

Section Order.

(** X13: a notification never outlives one that was shown after it.  For
    two calls of showNotification, whatever happens between and after
    them, the node of the first call is a child of the body only while the
    node of the second call is one too. *)
Theorem X13_first_in_first_out (st : Page) (m1 m2 : jsstring)
    (t1 t2 : option jsstring) (evs1 evs2 : list Event) :
  wf st →
  ∃ st1 st2 st3 st4 n1 n2,
    showNotification m1 t1 st = Ok ((), st1) ∧
    emitted st st1 n1 m1 (default (js "info") t1) ∧
    runEvents evs1 st1 = Ok ((), st2) ∧
    showNotification m2 t2 st2 = Ok ((), st3) ∧
    emitted st2 st3 n2 m2 (default (js "info") t2) ∧
    runEvents evs2 st3 = Ok ((), st4) ∧
    n1 ≠ n2 ∧ (n1 ∈ body st4 → n2 ∈ body st4).
Proof.
  intros Hwf.
  destruct (showNotification_starts m1 t1 st Hwf)
    as (st1 & Hrun1 & Hwf1 & Hem1 & _ & Hlife1 & Hlater1 & Hnow1).
  destruct (runEvents_steps evs1 st1 Hwf1) as (st2 & Hrun2 & Hwf2 & Hnow2 & Hkeep2).
  destruct (Hkeep2 _ _ Hlife1 Hlater1) as [Hlife2 Hlater2].
  destruct (showNotification_starts m2 t2 st2 Hwf2)
    as (st3 & Hrun3 & Hwf3 & Hem3 & _ & Hlife3 & Hlater3 & Hnow3).
  destruct (steady_showNotification m2 t2 st2 Hwf2) as (st3' & Hrun3' & _ & Hg & Hs).
  rewrite Hrun3 in Hrun3'. injection Hrun3' as <-.
  destruct (lifecycle_stable _ _ st2 st3 Hg (Hs _ (proj1 Hlife2)) Hlife2 Hlater2)
    as [Hlife1' Hlater1'].
  destruct (runEvents_steps evs2 st3 Hwf3) as (st4 & Hrun4 & Hwf4 & Hnow4 & Hkeep4).
  destruct (Hkeep4 _ _ Hlife1' Hlater1') as [Hlife14 Hlater14].
  destruct (Hkeep4 _ _ Hlife3 Hlater3) as [Hlife24 Hlater24].
  exists st1, st2, st3, st4, (fresh_handle (heap st)), (fresh_handle (heap st2)).
  do 6 (split; [done|]). split.
  - intros Heq. destruct Hem3 as (Hfresh & _). rewrite <- Heq in Hfresh.
    destruct Hlife2 as [[e He] _]. congruence.
  - intros Hin.
    destruct (lifecycle_by_age _ _ st4 Hlife14 Hlater14) as (_ & _ & Hgone).
    destruct (lifecycle_by_age _ _ st4 Hlife24 Hlater24) as (Hshown & Hgoing & _).
    destruct (N.lt_ge_cases (now st4) (now st + 3300)) as [Hlt | Hge];
      [|by destruct (Hgone Hge)].
    destruct (N.lt_ge_cases (now st4) (now st2 + 3000)) as [Hlt2 | Hge2].
    + by destruct (Hshown Hlt2).
    + destruct Hgoing as (? & _); [lia | done].
Qed.

Lemma X13_first_in_first_out_witness :
  wf (formPage [] []) ∧
  ∃ st1 st2 st3 st4 n1 n2,
    showNotification (js "a") None (formPage [] []) = Ok ((), st1) ∧
    emitted (formPage [] []) st1 n1 (js "a") (default (js "info") None) ∧
    runEvents [Elapse 1000] st1 = Ok ((), st2) ∧
    showNotification (js "b") (Some (js "error")) st2 = Ok ((), st3) ∧
    emitted st2 st3 n2 (js "b") (default (js "info") (Some (js "error"))) ∧
    runEvents [Elapse 2500] st3 = Ok ((), st4) ∧
    n1 ≠ n2 ∧ (n1 ∈ body st4 → n2 ∈ body st4).
Proof.
  split; [apply wf_formPage|].
  apply (X13_first_in_first_out (formPage [] []) (js "a") (js "b") None
           (Some (js "error")) [Elapse 1000] [Elapse 2500]).
  apply wf_formPage.
Defined.

End Order.
